(** * The MICT cycle engine (mict-framework.js)

    A shallow embedding of class [MICT]: the constructor with its
    configuration checks, [nextStage], [startCycle], [stopCycle],
    [setState], [getPreviousState] and [reset], followed by the properties
    of the engine that the specification states.

    Modelling conventions.
    - JavaScript values are the inductive type [JS.value]; an object is the
      list of its own enumerable properties in [for ... in] order.  What a
      value has beyond these (the members it inherits from
      [Object.prototype] and the like) is the parameter [inherited] of the
      engine: [nextStage] looks the stage function up with it.
    - The engine instance is the record [MICT]; every method is a
      computation in the monad [M], which threads the instance and the
      host (console, timers, the calls received by the callbacks) and has
      an exceptional completion, so [try]/[catch] is written out.
    - A stage function is code of the embedding application.  The
      completion of its call (a returned value or a thrown error) is an
      argument of [nextStage].  The callbacks [updateUI] and [errorHandler]
      are recorded by the calls they receive and return normally; calling
      a value that is not a function throws a [TypeError].
    - Values are immutable and the callbacks do not call back into the
      instance: a field changes only where a method assigns it. *)

From Stdlib Require Import List String Ascii ZArith Bool Lia PeanoNat.
From Stdlib Require Import DecimalString Permutation.
Import ListNotations.
Local Open Scope string_scope.

(** ** JavaScript values *)

Module JS.

#[local] Set Warnings "-register-all".

Inductive value : Type :=
| VUndefined
| VNull
| VBool (b : bool)
| VNum (n : Z)
| VNaN
| VStr (s : string)
| VArray (elems : list string)            (* arrays of strings: stage lists *)
| VObject (props : list (string * value)) (* own enumerable properties *)
| VFunction (f : nat)
| VPromise (p : nat)                      (* what an async function returns *)
| VError (message : string)               (* new Error(message) *)
| VTypeError.                             (* call of a non-function *)

(** ToBoolean: the test of [if], [!] and [||]. *)
Definition truthy (v : value) : bool :=
  match v with
  | VUndefined | VNull | VNaN => false
  | VBool b => b
  | VNum n => negb (n =? 0)%Z
  | VStr s => negb (s =? "")
  | _ => true
  end.

Definition typeof (v : value) : string :=
  match v with
  | VUndefined => "undefined"
  | VBool _ => "boolean"
  | VNum _ | VNaN => "number"
  | VStr _ => "string"
  | VFunction _ => "function"
  | _ => "object"
  end.

(** [a || b] *)
Definition or_else (a b : value) : value := if truthy a then a else b.

(** [Array.isArray(v)] *)
Definition isArray (v : value) : bool :=
  match v with VArray _ => true | _ => false end.

(** The elements of an array value. *)
Definition elements (v : value) : list string :=
  match v with VArray elems => elems | _ => [] end.

(** [elems[i]]: [undefined] out of range. *)
Definition element (elems : list string) (i : nat) : value :=
  match nth_error elems i with
  | Some s => VStr s
  | None => VUndefined
  end.

Definition index_key (n : nat) : string :=
  NilEmpty.string_of_uint (Nat.to_uint n).

Fixpoint indexed {A : Type} (n : nat) (l : list A) : list (string * A) :=
  match l with
  | [] => []
  | x :: rest => (index_key n, x) :: indexed (S n) rest
  end.

(** The own enumerable properties of a value: those of an object, the
    indices of an array or of a string, none otherwise. *)
Definition own_props (v : value) : list (string * value) :=
  match v with
  | VObject props => props
  | VArray elems => indexed 0 (map VStr elems)
  | VStr s =>
      indexed 0 (map (fun c => VStr (String c EmptyString))
                     (list_ascii_of_string s))
  | _ => []
  end.

Fixpoint lookup (k : string) (props : list (string * value)) : value :=
  match props with
  | [] => VUndefined
  | (k', v) :: rest => if k =? k' then v else lookup k rest
  end.

(** [v[k]] and [v.k]: [undefined] when there is no such property. *)
Definition get (v : value) (k : string) : value := lookup k (own_props v).

(** The keys visited by [for (const k in v)]. *)
Definition keys (v : value) : list string := map fst (own_props v).

(** [k] is one of the own enumerable properties of [v]. *)
Definition has_own (v : value) (k : string) : bool :=
  existsb (String.eqb k) (keys v).

(** The functions that every object inherits from [Object.prototype]. *)
Definition Object_prototype_functions : list string :=
  ["constructor"; "hasOwnProperty"; "isPrototypeOf";
   "propertyIsEnumerable"; "toLocaleString"; "toString"; "valueOf";
   "__defineGetter__"; "__defineSetter__"; "__lookupGetter__";
   "__lookupSetter__"].

Fixpoint position (k : string) (names : list string) : option nat :=
  match names with
  | [] => None
  | name :: rest =>
      if k =? name then Some 0 else option_map S (position k rest)
  end.

(** What a plain object inherits: the functions of [Object.prototype]
    (numbered from 100 on) and, under [__proto__], the prototype itself,
    an object without enumerable properties. *)
Definition Object_prototype (v : value) (k : string) : value :=
  if k =? "__proto__" then VObject []
  else match position k Object_prototype_functions with
       | Some i => VFunction (100 + i)
       | None => VUndefined
       end.

(** [elems.includes(k)] for a string [k]. *)
Definition includes (elems : list string) (k : string) : bool :=
  existsb (String.eqb k) elems.

(** [elems.join(sep)] *)
Definition join (sep : string) (elems : list string) : string :=
  String.concat sep elems.

End JS.

Import JS.

(** ** Completions, host and instance *)

Inductive completion (A : Type) : Type :=
| Normal (a : A)
| Throw (error : value).

Arguments Normal {A} a.
Arguments Throw {A} error.

(** What the engine does to its environment, newest first. *)
Inductive event : Type :=
| StageFunctionCall (f : nat) (state : value)
| UpdateUICall (state stage : value)
| ErrorHandlerCall (error stage state : value)
| ConsoleError (message : string) (error : value)
| ConsoleWarn (message : string).

Record Host : Type := mkHost {
  trace : list event;
  timers : list (nat * value);   (* active timers: handle and delay *)
  next_timer : nat               (* next handle of setInterval *)
}.

(** The fields of an instance, in the order the constructor assigns them.
    [initialState] stands for the property [this.initialState], which
    [reset] reads and which no method assigns. *)
Record MICT : Type := mkMICT {
  stages : list string;
  currentState : value;
  currentStageIndex : nat;
  updateUI : value;
  stageFunctions : value;
  intervalId : option nat;
  interval : value;
  errorHandler : value;
  previousState : value;
  initialState : value
}.

Definition set_currentState (v : value) (e : MICT) : MICT :=
  mkMICT (stages e) v (currentStageIndex e) (updateUI e) (stageFunctions e)
         (intervalId e) (interval e) (errorHandler e) (previousState e)
         (initialState e).

Definition set_currentStageIndex (i : nat) (e : MICT) : MICT :=
  mkMICT (stages e) (currentState e) i (updateUI e) (stageFunctions e)
         (intervalId e) (interval e) (errorHandler e) (previousState e)
         (initialState e).

Definition set_intervalId (t : option nat) (e : MICT) : MICT :=
  mkMICT (stages e) (currentState e) (currentStageIndex e) (updateUI e)
         (stageFunctions e) t (interval e) (errorHandler e) (previousState e)
         (initialState e).

Definition set_previousState (v : value) (e : MICT) : MICT :=
  mkMICT (stages e) (currentState e) (currentStageIndex e) (updateUI e)
         (stageFunctions e) (intervalId e) (interval e) (errorHandler e) v
         (initialState e).

Record Machine : Type := mkMachine {
  this : MICT;
  host : Host
}.

(** ** The monad of methods *)

Definition M (A : Type) : Type := Machine -> completion A * Machine.

Definition ret {A : Type} (a : A) : M A := fun m => (Normal a, m).

Definition bind {A B : Type} (c : M A) (k : A -> M B) : M B :=
  fun m =>
    match c m with
    | (Normal a, m') => k a m'
    | (Throw error, m') => (Throw error, m')
    end.

Definition throw {A : Type} (error : value) : M A := fun m => (Throw error, m).

(** [try { body } catch (error) { handler }]: the handler starts from the
    machine the body left. *)
Definition try_catch {A : Type} (body : M A) (handler : value -> M A) : M A :=
  fun m =>
    match body m with
    | (Normal a, m') => (Normal a, m')
    | (Throw error, m') => handler error m'
    end.

Definition read {A : Type} (field : MICT -> A) : M A :=
  fun m => (Normal (field (this m)), m).

Definition assign (set : MICT -> MICT) : M unit :=
  fun m => (Normal tt, mkMachine (set (this m)) (host m)).

Definition emit (ev : event) : M unit :=
  fun m =>
    (Normal tt,
     mkMachine (this m)
       (mkHost (ev :: trace (host m)) (timers (host m)) (next_timer (host m)))).

Declare Scope js_scope.
Delimit Scope js_scope with js.
Notation "x <- c ;; k" := (bind c (fun x => k))
  (at level 61, c at next level, right associativity) : js_scope.
Notation "c ;; k" := (bind c (fun _ => k))
  (at level 61, right associativity) : js_scope.
Local Open Scope js_scope.

(** ** Host functions *)

(** [setInterval(callback, delay)]; the callback is always
    [() => this.nextStage()], so a timer is its handle and its delay. *)
Definition setInterval (delay : value) : M nat :=
  fun m =>
    let id := next_timer (host m) in
    (Normal id,
     mkMachine (this m)
       (mkHost (trace (host m)) ((id, delay) :: timers (host m)) (S id))).

Definition clearInterval (id : nat) : M unit :=
  fun m =>
    (Normal tt,
     mkMachine (this m)
       (mkHost (trace (host m))
          (filter (fun t => negb (fst t =? id)%nat) (timers (host m)))
          (next_timer (host m)))).

(** [callee(state)] for a stage function: [result] is what the function
    does once it is entered. *)
Definition call_stageFunction (callee state : value)
    (result : completion value) : M value :=
  match callee with
  | VFunction f =>
      emit (StageFunctionCall f state) ;;
      match result with
      | Normal v => ret v
      | Throw error => throw error
      end
  | _ => throw VTypeError
  end.

(** [this.updateUI(state, stage)] *)
Definition call_updateUI (callee state stage : value) : M unit :=
  match callee with
  | VFunction _ => emit (UpdateUICall state stage)
  | _ => throw VTypeError
  end.

(** [this.errorHandler(error, stage, state)] *)
Definition call_errorHandler (callee error stage state : value) : M unit :=
  match callee with
  | VFunction _ => emit (ErrorHandlerCall error stage state)
  | _ => throw VTypeError
  end.

(** The text of a stage in a template literal and as a property key:
    [stages[i]] is a string, or [undefined] out of range. *)
Definition stage_text (stage : value) : string :=
  match stage with
  | VStr s => s
  | _ => "undefined"
  end.

(** ** The constructor *)

Fixpoint validate_stageFunctions (stages : list string) (fns : value)
    (names : list string) : completion unit :=
  match names with
  | [] => Normal tt
  | stageName :: rest =>
      if negb (includes stages stageName) then
        Throw (VError ("Invalid stage name '" ++ stageName
                       ++ "' in stageFunctions.  Must be one of: "
                       ++ join ", " stages))
      else if negb (typeof (get fns stageName) =? "function") then
        Throw (VError ("stageFunctions['" ++ stageName
                       ++ "'] must be a function."))
      else validate_stageFunctions stages fns rest
  end.

Definition constructor (config : value) : completion MICT :=
  if negb (truthy config) || negb (typeof config =? "object") then
    Throw (VError "MICT constructor requires a configuration object.")
  else if negb (isArray (get config "stages"))
          || (List.length (elements (get config "stages")) =? 0)%nat then
    Throw (VError "MICT configuration must include a 'stages' array with at least one stage.")
  else if negb (typeof (get config "updateUI") =? "function") then
    Throw (VError "MICT configuration must include an 'updateUI' function.")
  else
    let e :=
      {| stages := elements (get config "stages");
         currentState := get config "initialState";
         currentStageIndex := 0;
         updateUI := get config "updateUI";
         stageFunctions := or_else (get config "stageFunctions") (VObject []);
         intervalId := None;
         interval := or_else (get config "interval") (VNum 0);
         errorHandler := or_else (get config "errorHandler") VNull;
         previousState := VNull;
         initialState := VUndefined |} in
    match validate_stageFunctions (stages e) (stageFunctions e)
            (keys (stageFunctions e)) with
    | Normal _ => Normal e
    | Throw error => Throw error
    end.

(** ** The methods *)

Section Engine.

(** [inherited v k] is what [v[k]] evaluates to when [k] is not an own
    enumerable property of [v]: the member that [v] inherits from its
    prototype chain, [undefined] when there is none.  It belongs to the
    JavaScript engine; for plain objects it is [JS.Object_prototype]. *)
Variable inherited : value -> string -> value.

(** [v[k]] for an arbitrary key: an own property shadows an inherited
    member. *)
Definition member (v : value) (k : string) : value :=
  if has_own v k then get v k else inherited v k.

(** [this.stages[this.currentStageIndex]] *)
Definition getCurrentStage : M value :=
  names <- read stages ;;
  i <- read currentStageIndex ;;
  ret (element names i).

Definition getCurrentStageIndex : M nat := read currentStageIndex.

(** [nextStage()]; [result] is the completion of the stage function, if
    one is called.  The inner computation answers whether control reaches
    the code after the [if]: the [catch] block ends in [return]. *)
Definition nextStage (result : completion value) : M unit :=
  currentStage <- getCurrentStage ;;
  fns <- read stageFunctions ;;
  proceed <-
    (if truthy (member fns (stage_text currentStage)) then
       try_catch
         (state <- read currentState ;;
          newState <- call_stageFunction
                        (member fns (stage_text currentStage))
                        state result ;;
          saved <- read currentState ;;
          assign (set_previousState saved) ;;
          match newState with
          | VUndefined => ret true
          | _ => assign (set_currentState newState) ;; ret true
          end)
         (fun error =>
            handler <- read errorHandler ;;
            (if truthy handler then
               state <- read currentState ;;
               call_errorHandler handler error currentStage state
             else
               emit (ConsoleError
                       ("Error in stage '" ++ stage_text currentStage ++ "':")
                       error)) ;;
            ret false)
     else ret true) ;;
  if proceed then
    i <- read currentStageIndex ;;
    names <- read stages ;;
    assign (set_currentStageIndex ((i + 1) mod List.length names)) ;;
    observer <- read updateUI ;;
    state <- read currentState ;;
    stage <- getCurrentStage ;;
    call_updateUI observer state stage
  else ret tt.

Definition stopCycle : M unit :=
  id <- read intervalId ;;
  match id with
  | Some t => clearInterval t ;; assign (set_intervalId None)
  | None => ret tt
  end.

Definition startCycle (interval_arg : value) : M unit :=
  id <- read intervalId ;;
  match id with
  | Some _ =>
      emit (ConsoleWarn
              "MICT cycle is already running.  Stopping the previous cycle.") ;;
      stopCycle
  | None => ret tt
  end ;;
  default <- read interval ;;
  let intervalToUse := or_else interval_arg default in
  if negb (truthy intervalToUse) then
    emit (ConsoleWarn
            "MICT cycle started without an interval.  Call nextStage() manually.")
  else
    t <- setInterval intervalToUse ;;
    assign (set_intervalId (Some t)).

Definition setState (newState : value) : M unit :=
  assign (set_currentState newState) ;;
  observer <- read updateUI ;;
  state <- read currentState ;;
  stage <- getCurrentStage ;;
  call_updateUI observer state stage.

Definition getPreviousState : M value := read previousState.

Definition reset : M unit :=
  assign (set_currentStageIndex 0) ;;
  initial <- read initialState ;;
  assign (set_currentState initial) ;;
  assign (set_previousState VNull) ;;
  stopCycle ;;
  observer <- read updateUI ;;
  state <- read currentState ;;
  stage <- getCurrentStage ;;
  call_updateUI observer state stage.

(** ** Sequences of calls *)

Inductive call : Type :=
| CallNextStage (result : completion value)
| CallSetState (newState : value)
| CallReset
| CallStartCycle (interval_arg : value)
| CallStopCycle.

Definition perform (c : call) : M unit :=
  match c with
  | CallNextStage result => nextStage result
  | CallSetState newState => setState newState
  | CallReset => reset
  | CallStartCycle interval_arg => startCycle interval_arg
  | CallStopCycle => stopCycle
  end.

(** The caller goes on after a call whatever its completion. *)
Fixpoint run (calls : list call) (m : Machine)
    : list (completion unit) * Machine :=
  match calls with
  | [] => ([], m)
  | c :: rest =>
      let (r, m') := perform c m in
      let (rs, m'') := run rest m' in
      (r :: rs, m'')
  end.

Definition updateUI_calls (t : list event) : list event :=
  filter (fun ev => match ev with UpdateUICall _ _ => true | _ => false end) t.

(** ** Engines

    What the constructor guarantees and every method keeps: a stage list
    that is not empty, an index into it, a callable [updateUI], and stage
    functions that are functions under names of stages. *)
Definition valid_engine (e : MICT) : bool :=
  (currentStageIndex e <? List.length (stages e))%nat
  && (typeof (updateUI e) =? "function")
  && forallb (fun stageName =>
                includes (stages e) stageName
                && (typeof (get (stageFunctions e) stageName) =? "function"))
             (keys (stageFunctions e)).

(** The entry of [stageFunctions] for the current stage: its own stage
    function. *)
Definition current_stageFunction (e : MICT) : value :=
  get (stageFunctions e)
      (stage_text (element (stages e) (currentStageIndex e))).

(** [this.stageFunctions[currentStage]] as [nextStage] evaluates it: the
    own stage function or, without one, an inherited member. *)
Definition current_member (e : MICT) : value :=
  member (stageFunctions e)
         (stage_text (element (stages e) (currentStageIndex e))).

(** Every stage name finds nothing or a function in [stageFunctions]: none
    is the name of an inherited member that cannot be called, as
    [__proto__] is. *)
Definition stages_callable (e : MICT) : bool :=
  forallb (fun name =>
             negb (truthy (member (stageFunctions e) name))
             || (typeof (member (stageFunctions e) name) =? "function"))
          (stages e).

(** ** Sample configurations *)

Definition four_stages : list string :=
  ["Mapping"; "Iteration"; "Checking"; "Transformation"].

(** [{ stages: [...], initialState: 7, updateUI: f0,
       stageFunctions: { Mapping: f1 }, errorHandler: f2 }] *)
Definition sample_config : value :=
  VObject [("stages", VArray four_stages);
           ("initialState", VNum 7);
           ("updateUI", VFunction 0);
           ("stageFunctions", VObject [("Mapping", VFunction 1)]);
           ("errorHandler", VFunction 2)].

Definition sample_engine : MICT :=
  {| stages := four_stages;
     currentState := VNum 7;
     currentStageIndex := 0;
     updateUI := VFunction 0;
     stageFunctions := VObject [("Mapping", VFunction 1)];
     intervalId := None;
     interval := VNum 0;
     errorHandler := VFunction 2;
     previousState := VNull;
     initialState := VUndefined |}.

(** A stage function under a name that is not a stage. *)
Definition unknown_stage_config : value :=
  VObject [("stages", VArray four_stages);
           ("updateUI", VFunction 0);
           ("stageFunctions", VObject [("Unknown", VFunction 1)])].

Definition fresh_host : Host := mkHost [] [] 1.

(** The sample engine at a stage that has no stage function. *)
Definition sample_engine_at_Iteration : MICT :=
  set_currentStageIndex 1 sample_engine.

(** The sample engine with a timer of 100 ms running. *)
Definition running_engine : MICT := set_intervalId (Some 1) sample_engine.

Definition running_host : Host := mkHost [] [(1, VNum 100)] 2.

(** The calls of [nextStage] whose stage function throws [errors] in turn. *)
Definition failing_advances (errors : list value) : list call :=
  map (fun error => CallNextStage (Throw error)) errors.

(** A sequence of calls that takes every path of the methods. *)
Definition sample_calls : list call :=
  [CallNextStage (Normal (VNum 8)); CallNextStage (Throw VNull);
   CallSetState (VStr "s"); CallStartCycle (VNum 100);
   CallNextStage (Normal VUndefined); CallReset; CallStopCycle;
   CallNextStage (Normal VNull)].

(** The machine after a sequence of calls on a new instance. *)
Definition after_calls (calls : list call) (e : MICT) (h : Host) : Machine :=
  snd (run calls (mkMachine e h)).

(** ** More calls and hosts *)

(** The calls of [nextStage] whose stage function, when there is one,
    returns [results] in turn. *)
Definition successful_advances (results : list value) : list call :=
  map (fun v => CallNextStage (Normal v)) results.

(** The handles of the active timers are among those [setInterval] has
    given out. *)
Definition host_fresh (h : Host) : bool :=
  forallb (fun timer => (fst timer <? next_timer h)%nat) (timers h).

(** The stage names that the callbacks were given, newest first. *)
Fixpoint callback_stages (t : list event) : list value :=
  match t with
  | [] => []
  | UpdateUICall _ stage :: rest => stage :: callback_stages rest
  | ErrorHandlerCall _ stage _ :: rest => stage :: callback_stages rest
  | _ :: rest => callback_stages rest
  end.

(** ** Stage functions without effects

    [apply f state] is what function [f] does on [state] when the stage
    functions are pure.  [advance_with] is a call of [nextStage] in which the
    stage function of the current stage behaves so. *)
Definition stage_result (apply : nat -> value -> completion value)
    (e : MICT) : completion value :=
  match current_member e with
  | VFunction f => apply f (currentState e)
  | _ => Normal VUndefined
  end.

Definition advance_with (apply : nat -> value -> completion value) : M unit :=
  fun m => nextStage (stage_result apply (this m)) m.

Fixpoint advance_n (apply : nat -> value -> completion value) (n : nat)
    (m : Machine) : Machine :=
  match n with
  | 0 => m
  | S k => advance_n apply k (snd (advance_with apply m))
  end.

(** What [currentState] becomes when the stage [name] is run on [state]. *)
Definition stage_step (apply : nat -> value -> completion value)
    (fns : value) (state : value) (name : string) : value :=
  match member fns name with
  | VFunction f =>
      match apply f state with
      | Normal VUndefined => state
      | Normal v => v
      | Throw _ => state
      end
  | _ => state
  end.

(** The names of the [k] stages from index [i] on, around the cycle. *)
Definition cycle_from (names : list string) (i k : nat) : list string :=
  map (fun j => nth ((i + j) mod List.length names) names "") (seq 0 k).

(** A stage function that counts: [n => n + 1] on integers. *)
Definition counting (f : nat) (state : value) : completion value :=
  match state with
  | VNum n => Normal (VNum (n + 1))
  | _ => Normal VUndefined
  end.

(** ** [shuffleString] of the Hello World example

    [Math.random()] is a number of [[0, 1)], so
    [Math.floor(Math.random() * (i + 1))] is one of [0 .. i]: it is
    [draw i mod (i + 1)] for the draw [draw i] of the iteration of index
    [i], which is arbitrary. *)

Definition random_index (draw : nat -> nat) (i : nat) : nat :=
  draw i mod (i + 1).

(** [arr[i] = x] within the array *)
Fixpoint update {A : Type} (i : nat) (x : A) (l : list A) : list A :=
  match l, i with
  | [], _ => []
  | _ :: rest, 0 => x :: rest
  | y :: rest, S i' => y :: update i' x rest
  end.

(** [[arr[i], arr[j]] = [arr[j], arr[i]]]; the loop keeps both indices
    within the array. *)
Definition swap {A : Type} (i j : nat) (arr : list A) : list A :=
  match nth_error arr i, nth_error arr j with
  | Some a, Some b => update j a (update i b arr)
  | _, _ => arr
  end.

(** The loop [for (let i = ...; i > 0; i--)], entered with [i]. *)
Fixpoint shuffle_loop {A : Type} (draw : nat -> nat) (i : nat)
    (arr : list A) : list A :=
  match i with
  | 0 => arr
  | S i' => shuffle_loop draw i' (swap i (random_index draw i) arr)
  end.

Definition shuffleString (draw : nat -> nat) (str : value) : value :=
  match str with
  | VStr s =>
      let arr := list_ascii_of_string s in
      VStr (string_of_list_ascii
              (shuffle_loop draw (List.length arr - 1) arr))
  | _ => VStr ""
  end.

(** The timers of the host are those that were there at first, and on top
    of them the one whose handle the instance holds. *)
Definition owns_at_most_one (others : list (nat * value)) (first : nat)
    (e : MICT) (h : Host) : Prop :=
  first <= next_timer h
  /\ ((intervalId e = None /\ timers h = others)
      \/ (exists t d,
            intervalId e = Some t /\ first <= t /\ t < next_timer h
            /\ truthy d = true /\ timers h = (t, d) :: others)).

(** A configuration whose [errorHandler] is not a function. *)
Definition unchecked_handler_config : value :=
  VObject [("stages", VArray four_stages);
           ("initialState", VNum 7);
           ("updateUI", VFunction 0);
           ("stageFunctions", VObject [("Mapping", VFunction 1)]);
           ("errorHandler", VStr "log")].

Definition unchecked_handler_engine : MICT :=
  {| stages := four_stages;
     currentState := VNum 7;
     currentStageIndex := 0;
     updateUI := VFunction 0;
     stageFunctions := VObject [("Mapping", VFunction 1)];
     intervalId := None;
     interval := VNum 0;
     errorHandler := VStr "log";
     previousState := VNull;
     initialState := VUndefined |}.

(** A configuration whose first stage has the name of a member of
    [Object.prototype], without stage functions, and its instance. *)
Definition inherited_stage_config : value :=
  VObject [("stages", VArray ["toString"; "Iteration"]);
           ("initialState", VNum 7);
           ("updateUI", VFunction 0)].

Definition inherited_stage_engine : MICT :=
  {| stages := ["toString"; "Iteration"];
     currentState := VNum 7;
     currentStageIndex := 0;
     updateUI := VFunction 0;
     stageFunctions := VObject [];
     intervalId := None;
     interval := VNum 0;
     errorHandler := VNull;
     previousState := VNull;
     initialState := VUndefined |}.

(** A configuration without stage functions, and its instance. *)
Definition plain_config : value :=
  VObject [("stages", VArray four_stages);
           ("initialState", VStr "start");
           ("updateUI", VFunction 0)].

Definition plain_engine : MICT :=
  {| stages := four_stages;
     currentState := VStr "start";
     currentStageIndex := 0;
     updateUI := VFunction 0;
     stageFunctions := VObject [];
     intervalId := None;
     interval := VNum 0;
     errorHandler := VNull;
     previousState := VNull;
     initialState := VUndefined |}.

(** * Properties *)

(** ** Values and lookups *)

Lemma typeof_function (v : value) :
  (typeof v =? "function") = true -> exists f, v = VFunction f.
Proof.
  destruct v; cbn; intros H; try discriminate H.
  eexists; reflexivity.
Qed.

Lemma lookup_in_keys (k : string) (props : list (string * value)) :
  lookup k props <> VUndefined -> In k (map fst props).
Proof.
  induction props as [|[k' v] rest IH]; cbn.
  - intros H; now elim H.
  - destruct (String.eqb_spec k k') as [->|Hne]; intros H.
    + now left.
    + right; auto.
Qed.

Lemma truthy_get_in_keys (v : value) (k : string) :
  truthy (get v k) = true -> In k (keys v).
Proof.
  intros H. apply lookup_in_keys. unfold get in H.
  intros Hu. rewrite Hu in H. discriminate H.
Qed.

Lemma includes_In (elems : list string) (k : string) :
  includes elems k = true <-> In k elems.
Proof.
  unfold includes. rewrite existsb_exists. split.
  - intros (x & Hx & Heq). apply String.eqb_eq in Heq. now subst.
  - intros H. exists k. split; [assumption | apply String.eqb_refl].
Qed.

Lemma falsy_no_props (v : value) : truthy v = false -> own_props v = [].
Proof.
  destruct v; cbn; intros H; try reflexivity; try discriminate H.
  destruct s; [reflexivity | discriminate H].
Qed.

Lemma keys_or_empty (v : value) : keys (or_else v (VObject [])) = keys v.
Proof.
  unfold or_else, keys. destruct (truthy v) eqn:Hv; [reflexivity|].
  now rewrite (falsy_no_props v Hv).
Qed.

Lemma get_or_empty (v : value) (k : string) :
  get (or_else v (VObject [])) k = get v k.
Proof.
  unfold or_else, get. destruct (truthy v) eqn:Hv; [reflexivity|].
  now rewrite (falsy_no_props v Hv).
Qed.

(** ** Validity of engines *)

Lemma valid_engine_index (e : MICT) :
  valid_engine e = true -> currentStageIndex e < List.length (stages e).
Proof.
  unfold valid_engine. intros H.
  apply andb_prop in H as [H _]. apply andb_prop in H as [H _].
  now apply Nat.ltb_lt.
Qed.

Lemma valid_engine_updateUI (e : MICT) :
  valid_engine e = true -> exists u, updateUI e = VFunction u.
Proof.
  unfold valid_engine. intros H.
  apply andb_prop in H as [H _]. apply andb_prop in H as [_ H].
  now apply typeof_function.
Qed.

Lemma valid_engine_stageFunction (e : MICT) :
  valid_engine e = true ->
  truthy (current_stageFunction e) = true ->
  exists f, current_stageFunction e = VFunction f.
Proof.
  unfold valid_engine, current_stageFunction. intros H Ht.
  apply andb_prop in H as [_ H].
  rewrite forallb_forall in H.
  apply truthy_get_in_keys in Ht.
  apply H in Ht. apply andb_prop in Ht as [_ Ht].
  now apply typeof_function.
Qed.

(** ** The constructor *)

Lemma validate_stageFunctions_Normal (names fns_keys : list string)
    (fns : value) :
  validate_stageFunctions names fns fns_keys = Normal tt <->
  forallb (fun stageName =>
             includes names stageName
             && (typeof (get fns stageName) =? "function")) fns_keys = true.
Proof.
  induction fns_keys as [|k rest IH]; cbn.
  - split; reflexivity.
  - destruct (includes names k); cbn.
    + destruct (typeof (get fns k) =? "function"); cbn.
      * exact IH.
      * split; discriminate.
    + split; discriminate.
Qed.

Lemma validate_stageFunctions_cases (names fns_keys : list string)
    (fns : value) :
  validate_stageFunctions names fns fns_keys = Normal tt
  \/ exists message, validate_stageFunctions names fns fns_keys
                     = Throw (VError message).
Proof.
  induction fns_keys as [|k rest IH]; cbn.
  - now left.
  - destruct (includes names k); cbn.
    + destruct (typeof (get fns k) =? "function"); cbn.
      * exact IH.
      * right. eexists; reflexivity.
    + right. eexists; reflexivity.
Qed.

Lemma falsy_object_null (v : value) :
  truthy v = false -> typeof v = "object" -> v = VNull.
Proof.
  destruct v; cbn; intros Ht Ho; try discriminate Ht; try discriminate Ho.
  reflexivity.
Qed.

Lemma constructor_Normal (config : value) (e : MICT) :
  constructor config = Normal e ->
  truthy config = true
  /\ typeof config = "object"
  /\ isArray (get config "stages") = true
  /\ elements (get config "stages") <> []
  /\ (exists u, get config "updateUI" = VFunction u)
  /\ validate_stageFunctions (elements (get config "stages"))
       (or_else (get config "stageFunctions") (VObject []))
       (keys (or_else (get config "stageFunctions") (VObject []))) = Normal tt
  /\ e = {| stages := elements (get config "stages");
            currentState := get config "initialState";
            currentStageIndex := 0;
            updateUI := get config "updateUI";
            stageFunctions :=
              or_else (get config "stageFunctions") (VObject []);
            intervalId := None;
            interval := or_else (get config "interval") (VNum 0);
            errorHandler := or_else (get config "errorHandler") VNull;
            previousState := VNull;
            initialState := VUndefined |}.
Proof.
  unfold constructor.
  destruct (truthy config) eqn:Ht; cbn; [|discriminate].
  destruct (String.eqb_spec (typeof config) "object") as [Ho|Ho]; cbn;
    [|discriminate].
  destruct (isArray (get config "stages")) eqn:Ha; cbn; [|discriminate].
  destruct (elements (get config "stages")) as [|name names] eqn:He; cbn;
    [discriminate|].
  destruct (typeof (get config "updateUI") =? "function") eqn:Hu; cbn;
    [|discriminate].
  destruct (validate_stageFunctions_cases (name :: names)
              (keys (or_else (get config "stageFunctions") (VObject [])))
              (or_else (get config "stageFunctions") (VObject [])))
    as [Hv|[msg Hv]];
    rewrite Hv; intros H; [|discriminate H].
  injection H as <-.
  repeat split; try assumption; try discriminate.
  now apply typeof_function.
Qed.

Lemma constructor_cases (config : value) :
  (exists e, constructor config = Normal e)
  \/ (exists message, constructor config = Throw (VError message)).
Proof.
  unfold constructor.
  destruct (negb (truthy config) || negb (typeof config =? "object"));
    [right; eexists; reflexivity|].
  destruct (negb (isArray (get config "stages"))
            || (List.length (elements (get config "stages")) =? 0)%nat);
    [right; eexists; reflexivity|].
  destruct (negb (typeof (get config "updateUI") =? "function"));
    [right; eexists; reflexivity|].
  cbn.
  destruct (validate_stageFunctions_cases (elements (get config "stages"))
              (keys (or_else (get config "stageFunctions") (VObject [])))
              (or_else (get config "stageFunctions") (VObject [])))
    as [Hv|[msg Hv]];
    rewrite Hv.
  - left. eexists; reflexivity.
  - right. eexists; reflexivity.
Qed.

Lemma forallb_false_exists {A : Type} (f : A -> bool) (l : list A) :
  forallb f l = false -> exists x, In x l /\ f x = false.
Proof.
  induction l as [|a l IH]; cbn; [discriminate|].
  destruct (f a) eqn:Hfa; cbn.
  - intros H. destruct (IH H) as (x & Hx & Hfx). exists x. auto.
  - intros _. exists a. auto.
Qed.

Lemma forallb_pointwise {A : Type} (f g : A -> bool) (l : list A) :
  (forall x, f x = g x) -> forallb f l = forallb g l.
Proof.
  intros Hfg. induction l as [|a l IH]; cbn; [reflexivity|].
  now rewrite Hfg, IH.
Qed.

Lemma constructor_Normal_intro (config : value) :
  truthy config = true ->
  typeof config = "object" ->
  isArray (get config "stages") = true ->
  elements (get config "stages") <> [] ->
  typeof (get config "updateUI") = "function" ->
  forallb (fun stageName =>
             includes (elements (get config "stages")) stageName
             && (typeof (get (get config "stageFunctions") stageName)
                 =? "function"))
          (keys (get config "stageFunctions")) = true ->
  exists e, constructor config = Normal e.
Proof.
  intros Ht Ho Ha He Hu Hv. unfold constructor.
  rewrite Ht, Ho, Ha, Hu. cbn.
  destruct (elements (get config "stages")) as [|name names] eqn:Hn;
    [now elim He|]. cbn.
  rewrite keys_or_empty.
  assert (Hok : validate_stageFunctions (name :: names)
                  (or_else (get config "stageFunctions") (VObject []))
                  (keys (get config "stageFunctions")) = Normal tt).
  { apply validate_stageFunctions_Normal.
    erewrite forallb_pointwise; [exact Hv|].
    intros k. cbv beta. now rewrite get_or_empty. }
  rewrite Hok. eexists; reflexivity.
Qed.

(** C4. The constructor throws exactly when the configuration is [null]
    or not an object, or [stages] is not an array or is empty, or
    [updateUI] is not a function, or a key of [stageFunctions] is not
    among the stages, or a value of [stageFunctions] is not a function;
    what it throws is an [Error].  Otherwise it returns an instance with
    index 0, [currentState] the [initialState] of the configuration,
    [previousState] [null] and no timer. *)
Theorem constructor_fails_iff (config : value) :
  ((exists error, constructor config = Throw error) <->
     (config = VNull \/ typeof config <> "object")
     \/ (isArray (get config "stages") = false
         \/ elements (get config "stages") = [])
     \/ typeof (get config "updateUI") <> "function"
     \/ (exists k, In k (keys (get config "stageFunctions"))
                   /\ ~ In k (elements (get config "stages")))
     \/ (exists k, In k (keys (get config "stageFunctions"))
                   /\ typeof (get (get config "stageFunctions") k)
                      <> "function"))
  /\ (forall error, constructor config = Throw error ->
        exists message, error = VError message)
  /\ ((exists e, constructor config = Normal e)
      \/ (exists error, constructor config = Throw error))
  /\ (forall e, constructor config = Normal e ->
        currentStageIndex e = 0
        /\ currentState e = get config "initialState"
        /\ previousState e = VNull
        /\ intervalId e = None).
Proof.
  split; [split|split; [|split]].
  - (* a failure has one of the five causes *)
    intros [error Herr].
    destruct (truthy config) eqn:Ht.
    2:{ left. destruct (String.eqb_spec (typeof config) "object") as [Ho|Ho].
        - left. now apply falsy_object_null.
        - now right. }
    destruct (String.eqb_spec (typeof config) "object") as [Ho|Ho];
      [|now left; right].
    right.
    destruct (isArray (get config "stages")) eqn:Ha; [|now left; left].
    assert (Hdec : elements (get config "stages") = []
                   \/ elements (get config "stages") <> []).
    { destruct (elements (get config "stages"));
        [now left | right; discriminate]. }
    destruct Hdec as [Hn|Hn]; [now left; right|].
    right.
    destruct (String.eqb_spec (typeof (get config "updateUI")) "function")
      as [Hu|Hu]; [|now left].
    right.
    destruct (forallb (fun stageName =>
                includes (elements (get config "stages")) stageName
                && (typeof (get (get config "stageFunctions") stageName)
                    =? "function"))
                (keys (get config "stageFunctions"))) eqn:Hv.
    + exfalso.
      destruct (constructor_Normal_intro config Ht Ho Ha Hn Hu Hv) as [e He].
      rewrite He in Herr. discriminate Herr.
    + apply forallb_false_exists in Hv as (k & Hk & Hf).
      apply andb_false_iff in Hf as [Hf|Hf].
      * left. exists k. split; [assumption|].
        intros Hin. apply includes_In in Hin.
        rewrite Hin in Hf. discriminate Hf.
      * right. exists k. split; [assumption|].
        intros Heq. rewrite Heq in Hf. discriminate Hf.
  - (* each cause makes the construction fail *)
    intros Hcause.
    destruct (constructor_cases config) as [[e He]|[message Hm]];
      [|eexists; exact Hm].
    exfalso.
    apply constructor_Normal in He
      as (Ht & Ho & Ha & Hne & [u Hu] & Hv & _).
    rewrite keys_or_empty in Hv.
    apply validate_stageFunctions_Normal in Hv.
    rewrite forallb_forall in Hv.
    destruct Hcause as [[Hc|Hc]|[[Hc|Hc]|[Hc|[(k & Hk & Hc)|(k & Hk & Hc)]]]].
    + subst config. discriminate Ht.
    + contradiction.
    + rewrite Hc in Ha. discriminate Ha.
    + contradiction.
    + rewrite Hu in Hc. now apply Hc.
    + apply Hv in Hk. apply andb_prop in Hk as [Hk _].
      apply includes_In in Hk. contradiction.
    + apply Hv in Hk. apply andb_prop in Hk as [_ Hk].
      rewrite get_or_empty in Hk. apply String.eqb_eq in Hk. contradiction.
  - intros error Herr.
    destruct (constructor_cases config) as [[e He]|[message Hm]].
    + rewrite He in Herr. discriminate Herr.
    + rewrite Hm in Herr. injection Herr as <-. eexists; reflexivity.
  - destruct (constructor_cases config) as [[e He]|[message Hm]].
    + left. eexists; exact He.
    + right. eexists; exact Hm.
  - intros e He.
    apply constructor_Normal in He as (_ & _ & _ & _ & _ & _ & ->).
    cbn. repeat split.
Qed.

(** ** The methods, case by case *)

Ltac run_method :=
  unfold setState, reset, startCycle, stopCycle,
    getCurrentStage, getCurrentStageIndex, getPreviousState,
    call_updateUI, call_errorHandler, call_stageFunction,
    setInterval, clearInterval, try_catch, bind, ret, throw, read, assign,
    emit;
  cbn.

Lemma constructor_valid (config : value) (e : MICT) :
  constructor config = Normal e -> valid_engine e = true.
Proof.
  intros H.
  apply constructor_Normal in H as (_ & _ & _ & Hne & [u Hu] & Hv & ->).
  unfold valid_engine.
  cbn [stages currentStageIndex updateUI stageFunctions].
  apply validate_stageFunctions_Normal in Hv. rewrite Hv, Hu.
  destruct (elements (get config "stages")); [now elim Hne | reflexivity].
Qed.

(** An own property is what the lookup finds. *)
Lemma member_own (v : value) (k : string) :
  truthy (get v k) = true -> member v k = get v k.
Proof.
  intros Ht. unfold member, has_own.
  assert (Hin : existsb (String.eqb k) (keys v) = true).
  { apply existsb_exists. exists k.
    split; [now apply truthy_get_in_keys | apply String.eqb_refl]. }
  now rewrite Hin.
Qed.

Lemma current_member_own (e : MICT) :
  truthy (current_stageFunction e) = true ->
  current_member e = current_stageFunction e.
Proof.
  unfold current_member, current_stageFunction. apply member_own.
Qed.

(** Without an own property the lookup finds the inherited member. *)
Lemma member_inherited (v : value) (k : string) :
  ~ In k (keys v) -> member v k = inherited v k.
Proof.
  intros Hk. unfold member, has_own.
  destruct (existsb (String.eqb k) (keys v)) eqn:Hex; [|reflexivity].
  apply existsb_exists in Hex as (x & Hx & Heq).
  apply String.eqb_eq in Heq. subst x. contradiction.
Qed.

(** Nothing under the name of the current stage: the index moves on and
    [updateUI] is told. *)
Lemma nextStage_skip (e : MICT) (h : Host) (result : completion value)
    (u : nat) :
  truthy (current_member e) = false ->
  updateUI e = VFunction u ->
  nextStage result (mkMachine e h) =
  (Normal tt,
   mkMachine
     (set_currentStageIndex
        ((currentStageIndex e + 1) mod List.length (stages e)) e)
     (mkHost
        (UpdateUICall (currentState e)
           (element (stages e)
              ((currentStageIndex e + 1) mod List.length (stages e)))
         :: trace h)
        (timers h) (next_timer h))).
Proof.
  unfold current_member. intros Hf Hu.
  unfold nextStage. run_method. rewrite Hf. cbn. rewrite Hu. reflexivity.
Qed.

(** The function found under the name of the current stage returns [v]. *)
Lemma nextStage_member_returned (e : MICT) (h : Host) (v : value)
    (f u : nat) :
  current_member e = VFunction f ->
  updateUI e = VFunction u ->
  nextStage (Normal v) (mkMachine e h) =
  (Normal tt,
   mkMachine
     (set_currentStageIndex
        ((currentStageIndex e + 1) mod List.length (stages e))
        (set_currentState
           (match v with VUndefined => currentState e | _ => v end)
           (set_previousState (currentState e) e)))
     (mkHost
        (UpdateUICall
           (match v with VUndefined => currentState e | _ => v end)
           (element (stages e)
              ((currentStageIndex e + 1) mod List.length (stages e)))
         :: StageFunctionCall f (currentState e) :: trace h)
        (timers h) (next_timer h))).
Proof.
  unfold current_member. intros Hf Hu.
  unfold nextStage. run_method. rewrite Hf. cbn.
  destruct v; cbn; rewrite Hu; reflexivity.
Qed.

(** The function found under the name of the current stage throws
    [error]: the instance is as it was. *)
Lemma nextStage_member_thrown (e : MICT) (h : Host) (error : value)
    (f : nat) :
  current_member e = VFunction f ->
  nextStage (Throw error) (mkMachine e h) =
  if truthy (errorHandler e) then
    match errorHandler e with
    | VFunction _ =>
        (Normal tt,
         mkMachine e
           (mkHost
              (ErrorHandlerCall error
                 (element (stages e) (currentStageIndex e)) (currentState e)
               :: StageFunctionCall f (currentState e) :: trace h)
              (timers h) (next_timer h)))
    | _ =>
        (Throw VTypeError,
         mkMachine e
           (mkHost (StageFunctionCall f (currentState e) :: trace h)
              (timers h) (next_timer h)))
    end
  else
    (Normal tt,
     mkMachine e
       (mkHost
          (ConsoleError
             ("Error in stage '"
              ++ stage_text (element (stages e) (currentStageIndex e))
              ++ "':") error
           :: StageFunctionCall f (currentState e) :: trace h)
          (timers h) (next_timer h))).
Proof.
  unfold current_member. intros Hf.
  unfold nextStage. run_method. rewrite Hf. cbn.
  destruct (truthy (errorHandler e)) eqn:Ht; cbn; [|reflexivity].
  destruct (errorHandler e); reflexivity.
Qed.

(** A truthy value that is not a function under the name of the current
    stage: its call throws a [TypeError] inside [try], whatever [result]
    is, and the [catch] block runs. *)
Lemma nextStage_member_uncallable (e : MICT) (h : Host)
    (result : completion value) :
  truthy (current_member e) = true ->
  (typeof (current_member e) =? "function") = false ->
  nextStage result (mkMachine e h) =
  if truthy (errorHandler e) then
    match errorHandler e with
    | VFunction _ =>
        (Normal tt,
         mkMachine e
           (mkHost
              (ErrorHandlerCall VTypeError
                 (element (stages e) (currentStageIndex e)) (currentState e)
               :: trace h)
              (timers h) (next_timer h)))
    | _ => (Throw VTypeError, mkMachine e h)
    end
  else
    (Normal tt,
     mkMachine e
       (mkHost
          (ConsoleError
             ("Error in stage '"
              ++ stage_text (element (stages e) (currentStageIndex e))
              ++ "':") VTypeError
           :: trace h)
          (timers h) (next_timer h))).
Proof.
  unfold current_member. intros Ht Hf.
  unfold nextStage. run_method. rewrite Ht. cbn.
  destruct (member (stageFunctions e)
              (stage_text (element (stages e) (currentStageIndex e))));
    try discriminate Hf; cbn;
    destruct (truthy (errorHandler e)); cbn;
    try destruct (errorHandler e); reflexivity.
Qed.

(** The own stage function returns [v]. *)
Lemma nextStage_returned (e : MICT) (h : Host) (v : value) (f u : nat) :
  current_stageFunction e = VFunction f ->
  updateUI e = VFunction u ->
  nextStage (Normal v) (mkMachine e h) =
  (Normal tt,
   mkMachine
     (set_currentStageIndex
        ((currentStageIndex e + 1) mod List.length (stages e))
        (set_currentState
           (match v with VUndefined => currentState e | _ => v end)
           (set_previousState (currentState e) e)))
     (mkHost
        (UpdateUICall
           (match v with VUndefined => currentState e | _ => v end)
           (element (stages e)
              ((currentStageIndex e + 1) mod List.length (stages e)))
         :: StageFunctionCall f (currentState e) :: trace h)
        (timers h) (next_timer h))).
Proof.
  intros Hf. apply nextStage_member_returned.
  rewrite current_member_own; [exact Hf | now rewrite Hf].
Qed.

(** The own stage function throws [error]: the instance is as it was. *)
Lemma nextStage_thrown (e : MICT) (h : Host) (error : value) (f : nat) :
  current_stageFunction e = VFunction f ->
  nextStage (Throw error) (mkMachine e h) =
  if truthy (errorHandler e) then
    match errorHandler e with
    | VFunction _ =>
        (Normal tt,
         mkMachine e
           (mkHost
              (ErrorHandlerCall error
                 (element (stages e) (currentStageIndex e)) (currentState e)
               :: StageFunctionCall f (currentState e) :: trace h)
              (timers h) (next_timer h)))
    | _ =>
        (Throw VTypeError,
         mkMachine e
           (mkHost (StageFunctionCall f (currentState e) :: trace h)
              (timers h) (next_timer h)))
    end
  else
    (Normal tt,
     mkMachine e
       (mkHost
          (ConsoleError
             ("Error in stage '"
              ++ stage_text (element (stages e) (currentStageIndex e))
              ++ "':") error
           :: StageFunctionCall f (currentState e) :: trace h)
          (timers h) (next_timer h))).
Proof.
  intros Hf. apply nextStage_member_thrown.
  rewrite current_member_own; [exact Hf | now rewrite Hf].
Qed.

(** A value that is not a function in the place of an own stage function:
    the call throws inside [try]. *)
Lemma nextStage_not_callable (e : MICT) (h : Host)
    (result : completion value) :
  truthy (current_stageFunction e) = true ->
  (typeof (current_stageFunction e) =? "function") = false ->
  this (snd (nextStage result (mkMachine e h))) = e.
Proof.
  intros Ht Hf.
  pose proof (current_member_own e Ht) as Hm.
  rewrite <- Hm in Ht, Hf.
  rewrite (nextStage_member_uncallable e h result Ht Hf).
  destruct (truthy (errorHandler e)); [destruct (errorHandler e)|];
    reflexivity.
Qed.

Lemma setState_eq (e : MICT) (h : Host) (v : value) (u : nat) :
  updateUI e = VFunction u ->
  setState v (mkMachine e h) =
  (Normal tt,
   mkMachine (set_currentState v e)
     (mkHost
        (UpdateUICall v (element (stages e) (currentStageIndex e)) :: trace h)
        (timers h) (next_timer h))).
Proof.
  intros Hu. run_method. rewrite Hu. reflexivity.
Qed.

Lemma stopCycle_eq (e : MICT) (h : Host) :
  stopCycle (mkMachine e h) =
  (Normal tt,
   match intervalId e with
   | Some t =>
       mkMachine (set_intervalId None e)
         (mkHost (trace h)
            (filter (fun timer => negb (fst timer =? t)%nat) (timers h))
            (next_timer h))
   | None => mkMachine e h
   end).
Proof.
  run_method. destruct (intervalId e); reflexivity.
Qed.

Lemma reset_eq (e : MICT) (h : Host) (u : nat) :
  updateUI e = VFunction u ->
  reset (mkMachine e h) =
  (Normal tt,
   mkMachine
     (set_intervalId None
        (set_previousState VNull
           (set_currentState (initialState e) (set_currentStageIndex 0 e))))
     (mkHost
        (UpdateUICall (initialState e) (element (stages e) 0) :: trace h)
        (match intervalId e with
         | Some t =>
             filter (fun timer => negb (fst timer =? t)%nat) (timers h)
         | None => timers h
         end)
        (next_timer h))).
Proof.
  intros Hu. run_method.
  destruct (intervalId e) eqn:Hi; cbn; rewrite Hu; [reflexivity|].
  unfold set_intervalId, set_previousState, set_currentState,
    set_currentStageIndex.
  cbn. rewrite Hi. reflexivity.
Qed.

Lemma startCycle_eq (e : MICT) (h : Host) (arg : value) :
  startCycle arg (mkMachine e h) =
  let stopped :=
    match intervalId e with
    | Some t =>
        mkMachine (set_intervalId None e)
          (mkHost
             (ConsoleWarn
                "MICT cycle is already running.  Stopping the previous cycle."
              :: trace h)
             (filter (fun timer => negb (fst timer =? t)%nat) (timers h))
             (next_timer h))
    | None => mkMachine e h
    end in
  if truthy (or_else arg (interval e)) then
    (Normal tt,
     mkMachine (set_intervalId (Some (next_timer h)) (this stopped))
       (mkHost (trace (host stopped))
          ((next_timer h, or_else arg (interval e)) :: timers (host stopped))
          (S (next_timer h))))
  else
    (Normal tt,
     mkMachine (this stopped)
       (mkHost
          (ConsoleWarn
             "MICT cycle started without an interval.  Call nextStage() manually."
           :: trace (host stopped))
          (timers (host stopped)) (next_timer (host stopped)))).
Proof.
  run_method.
  destruct (intervalId e) eqn:Hi; cbn; rewrite ?Hi; cbn;
    destruct (truthy (or_else arg (interval e))); reflexivity.
Qed.

(** ** What every call keeps *)

Lemma valid_engine_frame (e e' : MICT) :
  valid_engine e = true ->
  stages e' = stages e ->
  updateUI e' = updateUI e ->
  stageFunctions e' = stageFunctions e ->
  currentStageIndex e' < List.length (stages e) ->
  valid_engine e' = true.
Proof.
  unfold valid_engine. intros H -> -> -> Hi.
  apply andb_prop in H as [H Hf]. apply andb_prop in H as [_ Hu].
  rewrite Hu, Hf. apply Nat.ltb_lt in Hi. now rewrite Hi.
Qed.

Lemma next_index_in_range (e : MICT) :
  valid_engine e = true ->
  (currentStageIndex e + 1) mod List.length (stages e)
  < List.length (stages e).
Proof.
  intros H. apply valid_engine_index in H.
  apply Nat.mod_upper_bound. lia.
Qed.

Lemma nextStage_frame (result : completion value) (e : MICT) (h : Host) :
  valid_engine e = true ->
  valid_engine (this (snd (nextStage result (mkMachine e h)))) = true
  /\ stages (this (snd (nextStage result (mkMachine e h)))) = stages e
  /\ initialState (this (snd (nextStage result (mkMachine e h))))
     = initialState e.
Proof.
  intros Hv.
  destruct (valid_engine_updateUI e Hv) as [u Hu].
  destruct (truthy (current_member e)) eqn:Ht.
  - destruct (typeof (current_member e) =? "function") eqn:Hty.
    + apply typeof_function in Hty as [f Hf].
      destruct result as [v|error].
      * rewrite (nextStage_member_returned e h v f u Hf Hu). cbn.
        repeat split.
        apply (valid_engine_frame e _ Hv); try reflexivity.
        now apply next_index_in_range.
      * rewrite (nextStage_member_thrown e h error f Hf).
        destruct (truthy (errorHandler e)); [destruct (errorHandler e)|];
          cbn; auto.
    + rewrite (nextStage_member_uncallable e h result Ht Hty).
      destruct (truthy (errorHandler e)); [destruct (errorHandler e)|];
        cbn; auto.
  - rewrite (nextStage_skip e h result u Ht Hu). cbn.
    repeat split.
    apply (valid_engine_frame e _ Hv); try reflexivity.
    now apply next_index_in_range.
Qed.

Lemma perform_frame (c : call) (m : Machine) :
  valid_engine (this m) = true ->
  valid_engine (this (snd (perform c m))) = true
  /\ stages (this (snd (perform c m))) = stages (this m)
  /\ initialState (this (snd (perform c m))) = initialState (this m).
Proof.
  destruct m as [e h]. cbn [this]. intros Hv.
  destruct (valid_engine_updateUI e Hv) as [u Hu].
  destruct c as [result|v| |arg|]; cbn [perform].
  - now apply nextStage_frame.
  - rewrite (setState_eq e h v u Hu). cbn. repeat split.
    apply (valid_engine_frame e _ Hv); try reflexivity.
    cbn. now apply valid_engine_index.
  - rewrite (reset_eq e h u Hu). cbn. repeat split.
    apply (valid_engine_frame e _ Hv); try reflexivity.
    apply valid_engine_index in Hv. cbn. lia.
  - rewrite (startCycle_eq e h arg).
    apply valid_engine_index in Hv as Hi.
    destruct (intervalId e), (truthy (or_else arg (interval e)));
      cbn [this snd set_intervalId stages initialState];
      (split; [|split; reflexivity]);
      apply (valid_engine_frame e _ Hv); try reflexivity; exact Hi.
  - rewrite (stopCycle_eq e h).
    apply valid_engine_index in Hv as Hi.
    destruct (intervalId e);
      cbn [this snd set_intervalId stages initialState];
      (split; [|split; reflexivity]);
      apply (valid_engine_frame e _ Hv); try reflexivity; exact Hi.
Qed.

Lemma run_frame (calls : list call) (m : Machine) :
  valid_engine (this m) = true ->
  valid_engine (this (snd (run calls m))) = true
  /\ stages (this (snd (run calls m))) = stages (this m)
  /\ initialState (this (snd (run calls m))) = initialState (this m).
Proof.
  revert m. induction calls as [|c rest IH]; intros m Hv; cbn.
  - auto.
  - destruct (perform_frame c m Hv) as (Hv' & Hs & Hi).
    destruct (perform c m) as [r m'] eqn:Hp. cbn [snd] in Hv', Hs, Hi.
    destruct (IH m' Hv') as (Hv'' & Hs' & Hi').
    destruct (run rest m') as [rs m''] eqn:Hr. cbn [snd] in *.
    repeat split; congruence.
Qed.

Lemma element_in_range (names : list string) (i : nat) :
  i < List.length names ->
  exists name, nth_error names i = Some name /\ element names i = VStr name.
Proof.
  intros Hi. unfold element.
  destruct (nth_error names i) as [name|] eqn:Hn.
  - exists name. auto.
  - apply nth_error_None in Hn. lia.
Qed.

(** ** [setState] *)

(** C7. [setState(v)] replaces [currentState] with [v] and changes no
    other field of the instance, so [previousState] and
    [currentStageIndex] are as before; it calls [updateUI] exactly once,
    with [v] and the name of the current stage. *)
Theorem setState_replaces_currentState (e : MICT) (h : Host) (v : value) :
  valid_engine e = true ->
  fst (setState v (mkMachine e h)) = Normal tt
  /\ this (snd (setState v (mkMachine e h))) = set_currentState v e
  /\ currentState (this (snd (setState v (mkMachine e h)))) = v
  /\ previousState (this (snd (setState v (mkMachine e h))))
     = previousState e
  /\ currentStageIndex (this (snd (setState v (mkMachine e h))))
     = currentStageIndex e
  /\ exists name,
       nth_error (stages e) (currentStageIndex e) = Some name
       /\ trace (host (snd (setState v (mkMachine e h))))
          = UpdateUICall v (VStr name) :: trace h.
Proof.
  intros Hv.
  destruct (valid_engine_updateUI e Hv) as [u Hu].
  destruct (element_in_range (stages e) (currentStageIndex e)
              (valid_engine_index e Hv)) as (name & Hn & He).
  rewrite (setState_eq e h v u Hu). cbn.
  repeat split. exists name. now rewrite He.
Qed.

(** ** [nextStage] *)

Lemma valid_engine_no_own_entry (e : MICT) :
  valid_engine e = true ->
  current_stageFunction e = VUndefined ->
  current_member e
  = inherited (stageFunctions e)
      (stage_text (element (stages e) (currentStageIndex e))).
Proof.
  unfold valid_engine, current_stageFunction, current_member.
  intros Hv Hf. apply member_inherited. intros Hin.
  apply andb_prop in Hv as [_ Hv]. rewrite forallb_forall in Hv.
  apply Hv in Hin. apply andb_prop in Hin as [_ Hin].
  rewrite Hf in Hin. discriminate Hin.
Qed.

(** C9. When the current stage has no entry in [stageFunctions],
    [nextStage] still takes what the object has under that name, which is
    then what it inherits.  An inherited function, as under the name
    [toString], is called as the stage function: [previousState] becomes
    the state of before and the value it returns, unless [undefined],
    becomes [currentState].  The state is kept and the index alone moves
    only when nothing truthy is inherited under the name.  An inherited
    value that is not a function, as under [__proto__], makes the call
    throw inside [try]: the instance stays as it is and [updateUI] is not
    called. *)
Theorem nextStage_calls_inherited_member (e : MICT) (h : Host)
    (v : value) :
  valid_engine e = true ->
  current_stageFunction e = VUndefined ->
  current_member e
  = inherited (stageFunctions e)
      (stage_text (element (stages e) (currentStageIndex e)))
  /\ (forall f,
        inherited (stageFunctions e)
          (stage_text (element (stages e) (currentStageIndex e)))
        = VFunction f ->
        fst (nextStage (Normal v) (mkMachine e h)) = Normal tt
        /\ previousState (this (snd (nextStage (Normal v) (mkMachine e h))))
           = currentState e
        /\ (v <> VUndefined ->
            currentState (this (snd (nextStage (Normal v) (mkMachine e h))))
            = v)
        /\ currentStageIndex
             (this (snd (nextStage (Normal v) (mkMachine e h))))
           = (currentStageIndex e + 1) mod List.length (stages e)
        /\ exists observed,
             trace (host (snd (nextStage (Normal v) (mkMachine e h))))
             = observed :: StageFunctionCall f (currentState e) :: trace h)
  /\ (truthy
        (inherited (stageFunctions e)
           (stage_text (element (stages e) (currentStageIndex e))))
      = false ->
      fst (nextStage (Normal v) (mkMachine e h)) = Normal tt
      /\ this (snd (nextStage (Normal v) (mkMachine e h)))
         = set_currentStageIndex
             ((currentStageIndex e + 1) mod List.length (stages e)) e
      /\ exists name,
           nth_error (stages e)
             ((currentStageIndex e + 1) mod List.length (stages e))
           = Some name
           /\ trace (host (snd (nextStage (Normal v) (mkMachine e h))))
              = UpdateUICall (currentState e) (VStr name) :: trace h)
  /\ (truthy
        (inherited (stageFunctions e)
           (stage_text (element (stages e) (currentStageIndex e))))
      = true ->
      typeof
        (inherited (stageFunctions e)
           (stage_text (element (stages e) (currentStageIndex e))))
      <> "function" ->
      this (snd (nextStage (Normal v) (mkMachine e h))) = e
      /\ updateUI_calls
           (trace (host (snd (nextStage (Normal v) (mkMachine e h)))))
         = updateUI_calls (trace h)).
Proof.
  intros Hv Hown.
  pose proof (valid_engine_no_own_entry e Hv Hown) as Hm.
  destruct (valid_engine_updateUI e Hv) as [u Hu].
  split; [exact Hm|]. split; [|split].
  3:{ intros Ht Hty. rewrite <- Hm in Ht, Hty.
      assert (Hty' : (typeof (current_member e) =? "function") = false)
        by (apply String.eqb_neq; exact Hty).
      rewrite (nextStage_member_uncallable e h (Normal v) Ht Hty').
      destruct (truthy (errorHandler e)); [destruct (errorHandler e)|];
        split; reflexivity. }
  - intros f Hf. rewrite <- Hm in Hf.
    rewrite (nextStage_member_returned e h v f u Hf Hu). cbn.
    split; [reflexivity|]. split; [reflexivity|].
    split; [destruct v; intros Hd; try reflexivity; now elim Hd|].
    split; [reflexivity|]. eexists; reflexivity.
  - intros Ht. rewrite <- Hm in Ht.
    destruct (element_in_range (stages e) _ (next_index_in_range e Hv))
      as (name & Hn & He).
    rewrite (nextStage_skip e h (Normal v) u Ht Hu). cbn.
    repeat split. exists name. now rewrite He.
Qed.

(** C3. When the stage function of the current stage returns,
    [previousState] becomes the [currentState] of before the call;
    [currentState] becomes the returned value, or stays when the function
    returned [undefined]; then the index moves to the next one modulo the
    number of stages and [updateUI] is called with the resulting state and
    the name of the new stage. *)
Theorem nextStage_stageFunction_returns (e : MICT) (h : Host) (v : value) :
  valid_engine e = true ->
  truthy (current_stageFunction e) = true ->
  fst (nextStage (Normal v) (mkMachine e h)) = Normal tt
  /\ previousState (this (snd (nextStage (Normal v) (mkMachine e h))))
     = currentState e
  /\ (v <> VUndefined ->
      currentState (this (snd (nextStage (Normal v) (mkMachine e h)))) = v)
  /\ (v = VUndefined ->
      currentState (this (snd (nextStage (Normal v) (mkMachine e h))))
      = currentState e)
  /\ currentStageIndex (this (snd (nextStage (Normal v) (mkMachine e h))))
     = (currentStageIndex e + 1) mod List.length (stages e)
  /\ exists f name,
       current_stageFunction e = VFunction f
       /\ nth_error (stages e)
            ((currentStageIndex e + 1) mod List.length (stages e))
          = Some name
       /\ trace (host (snd (nextStage (Normal v) (mkMachine e h))))
          = UpdateUICall
              (currentState
                 (this (snd (nextStage (Normal v) (mkMachine e h)))))
              (VStr name)
            :: StageFunctionCall f (currentState e) :: trace h.
Proof.
  intros Hv Ht.
  destruct (valid_engine_updateUI e Hv) as [u Hu].
  destruct (valid_engine_stageFunction e Hv Ht) as [f Hf].
  destruct (element_in_range (stages e) _ (next_index_in_range e Hv))
    as (name & Hn & He).
  rewrite (nextStage_returned e h v f u Hf Hu). cbn.
  split; [reflexivity|]. split; [reflexivity|].
  split; [destruct v; intros Hd; try reflexivity; now elim Hd|].
  split; [now intros ->|].
  split; [reflexivity|].
  exists f, name. now rewrite He.
Qed.

(** C10. When the call of the stage function throws, [nextStage] leaves
    the instance as it was: the index, [currentState] and [previousState]
    included. *)
Theorem nextStage_failure_is_atomic (e : MICT) (h : Host) (error : value) :
  truthy (current_stageFunction e) = true ->
  this (snd (nextStage (Throw error) (mkMachine e h))) = e
  /\ currentStageIndex (this (snd (nextStage (Throw error) (mkMachine e h))))
     = currentStageIndex e
  /\ currentState (this (snd (nextStage (Throw error) (mkMachine e h))))
     = currentState e
  /\ previousState (this (snd (nextStage (Throw error) (mkMachine e h))))
     = previousState e.
Proof.
  intros Ht.
  assert (H : this (snd (nextStage (Throw error) (mkMachine e h))) = e).
  { destruct (typeof (current_stageFunction e) =? "function") eqn:Hty.
    - apply typeof_function in Hty as [f Hf].
      rewrite (nextStage_thrown e h error f Hf).
      destruct (truthy (errorHandler e)); [destruct (errorHandler e)|];
        reflexivity.
    - now apply nextStage_not_callable. }
  rewrite H. auto.
Qed.

(** A call of [nextStage] whose stage function throws leaves the instance
    where it is, tells [updateUI] nothing, and completes normally when the
    error handler is a function or is not configured. *)
Lemma nextStage_thrown_parks (e : MICT) (h : Host) (error : value) :
  valid_engine e = true ->
  truthy (current_stageFunction e) = true ->
  exists r h',
    nextStage (Throw error) (mkMachine e h) = (r, mkMachine e h')
    /\ updateUI_calls (trace h') = updateUI_calls (trace h)
    /\ ((exists g, errorHandler e = VFunction g)
        \/ truthy (errorHandler e) = false -> r = Normal tt).
Proof.
  intros Hv Ht.
  destruct (valid_engine_stageFunction e Hv Ht) as [f Hf].
  rewrite (nextStage_thrown e h error f Hf).
  destruct (truthy (errorHandler e)) eqn:Hh.
  - destruct (errorHandler e) eqn:He;
      try (eexists; eexists; split; [reflexivity|]; split; [reflexivity|];
           intros [[g Hg]|Hg]; discriminate).
    eexists; eexists; split; [reflexivity|]. split; [reflexivity|]. reflexivity.
  - eexists; eexists; split; [reflexivity|]. split; reflexivity.
Qed.

Lemma failing_advances_park (e : MICT) (errors : list value) :
  valid_engine e = true ->
  truthy (current_stageFunction e) = true ->
  forall h,
    this (snd (run (failing_advances errors) (mkMachine e h))) = e
    /\ updateUI_calls
         (trace (host (snd (run (failing_advances errors) (mkMachine e h)))))
       = updateUI_calls (trace h)
    /\ ((exists g, errorHandler e = VFunction g)
        \/ truthy (errorHandler e) = false ->
        Forall (fun r => r = Normal tt)
          (fst (run (failing_advances errors) (mkMachine e h)))).
Proof.
  intros Hv Ht. induction errors as [|error rest IH]; intros h;
    unfold failing_advances; cbn [map run perform fst snd this host].
  - repeat split. intros _. constructor.
  - destruct (nextStage_thrown_parks e h error Hv Ht)
      as (r & h' & Hstep & Hcalls & Hr).
    rewrite Hstep.
    destruct (IH h') as (Hthis & Htrace & Hall).
    fold (failing_advances rest).
    destruct (run (failing_advances rest) (mkMachine e h')) as [rs m'].
    cbn [fst snd] in *.
    split; [assumption|]. split; [congruence|].
    intros Hh. constructor; auto.
Qed.

(** C2. When the stage function of the current stage throws, [nextStage]
    keeps [currentStageIndex] and does not call [updateUI]; an error
    handler that is configured is called with the error, the name of the
    current stage and [currentState], and without one the error goes to
    the console; either way the call completes normally.  Any number of
    such calls leaves the index at the failing stage, with no call of
    [updateUI], and each one completes normally. *)
Theorem nextStage_failure_is_contained (e : MICT) (h : Host)
    (error : value) :
  valid_engine e = true ->
  truthy (current_stageFunction e) = true ->
  currentStageIndex (this (snd (nextStage (Throw error) (mkMachine e h))))
  = currentStageIndex e
  /\ updateUI_calls
       (trace (host (snd (nextStage (Throw error) (mkMachine e h)))))
     = updateUI_calls (trace h)
  /\ (forall g, errorHandler e = VFunction g ->
      fst (nextStage (Throw error) (mkMachine e h)) = Normal tt
      /\ exists f name,
           nth_error (stages e) (currentStageIndex e) = Some name
           /\ trace (host (snd (nextStage (Throw error) (mkMachine e h))))
              = ErrorHandlerCall error (VStr name) (currentState e)
                :: StageFunctionCall f (currentState e) :: trace h)
  /\ (truthy (errorHandler e) = false ->
      fst (nextStage (Throw error) (mkMachine e h)) = Normal tt
      /\ exists f message,
           trace (host (snd (nextStage (Throw error) (mkMachine e h))))
           = ConsoleError message error
             :: StageFunctionCall f (currentState e) :: trace h)
  /\ (forall errors,
      currentStageIndex
        (this (snd (run (failing_advances errors) (mkMachine e h))))
      = currentStageIndex e
      /\ updateUI_calls
           (trace (host (snd (run (failing_advances errors)
                                (mkMachine e h)))))
         = updateUI_calls (trace h)
      /\ ((exists g, errorHandler e = VFunction g)
          \/ truthy (errorHandler e) = false ->
          Forall (fun r => r = Normal tt)
            (fst (run (failing_advances errors) (mkMachine e h))))).
Proof.
  intros Hv Ht.
  destruct (valid_engine_stageFunction e Hv Ht) as [f Hf].
  destruct (element_in_range (stages e) (currentStageIndex e)
              (valid_engine_index e Hv)) as (name & Hn & He).
  split; [|split; [|split; [|split]]].
  - destruct (nextStage_thrown_parks e h error Hv Ht)
      as (r & h' & Hstep & _). now rewrite Hstep.
  - destruct (nextStage_thrown_parks e h error Hv Ht)
      as (r & h' & Hstep & Hcalls & _). now rewrite Hstep.
  - intros g Hg. rewrite (nextStage_thrown e h error f Hf), Hg. cbn.
    split; [reflexivity|]. exists f, name. now rewrite He.
  - intros Hh. rewrite (nextStage_thrown e h error f Hf), Hh. cbn.
    split; [reflexivity|]. eexists; eexists; reflexivity.
  - intros errors.
    destruct (failing_advances_park e errors Hv Ht h) as (Hthis & Hrest).
    now rewrite Hthis.
Qed.

(** ** The index *)

(** C6. After any sequence of calls of [nextStage], [setState] and [reset]
    (and of [startCycle] and [stopCycle]) on an instance that the
    constructor returned, [getCurrentStageIndex()] returns an index into
    the stage list, which is still the list of the configuration. *)
Theorem currentStageIndex_in_range (config : value) (e : MICT) (h : Host)
    (calls : list call) :
  constructor config = Normal e ->
  exists i,
    fst (getCurrentStageIndex (after_calls calls e h)) = Normal i
    /\ i < List.length (stages (this (after_calls calls e h)))
    /\ stages (this (after_calls calls e h)) = elements (get config "stages").
Proof.
  intros Hc. pose proof (constructor_valid config e Hc) as Hv.
  destruct (run_frame calls (mkMachine e h) Hv) as (Hv' & Hs & _).
  unfold after_calls. cbn [this] in Hs.
  exists (currentStageIndex (this (snd (run calls (mkMachine e h))))).
  split; [reflexivity|]. split.
  - now apply valid_engine_index.
  - rewrite Hs.
    now apply constructor_Normal in Hc as (_ & _ & _ & _ & _ & _ & ->).
Qed.

(** ** [reset] *)

(** C1. On an instance that the constructor returned, after any calls,
    [reset] stops the timer, sets the index to 0, clears [previousState]
    and calls [updateUI] once with the new state and the name of the first
    stage; a second [reset] changes nothing more.  The state it puts in
    [currentState] is [undefined], the content of [this.initialState]:
    the constructor keeps the initial state of the configuration in
    [currentState] only. *)
Theorem reset_restores_undefined (config : value) (e : MICT) (h : Host)
    (calls : list call) :
  constructor config = Normal e ->
  fst (reset (after_calls calls e h)) = Normal tt
  /\ currentStageIndex (this (snd (reset (after_calls calls e h)))) = 0
  /\ currentState (this (snd (reset (after_calls calls e h)))) = VUndefined
  /\ previousState (this (snd (reset (after_calls calls e h)))) = VNull
  /\ intervalId (this (snd (reset (after_calls calls e h)))) = None
  /\ (forall t, intervalId (this (after_calls calls e h)) = Some t ->
      ~ In t (map fst (timers (host (snd (reset (after_calls calls e h)))))))
  /\ (exists name,
        nth_error (elements (get config "stages")) 0 = Some name
        /\ trace (host (snd (reset (after_calls calls e h))))
           = UpdateUICall VUndefined (VStr name)
             :: trace (host (after_calls calls e h)))
  /\ this (snd (reset (snd (reset (after_calls calls e h)))))
     = this (snd (reset (after_calls calls e h))).
Proof.
  intros Hc. pose proof (constructor_valid config e Hc) as Hv.
  destruct (run_frame calls (mkMachine e h) Hv) as (Hv' & Hs & Hi).
  apply constructor_Normal in Hc as (_ & _ & _ & _ & _ & _ & He).
  assert (Hstages : stages e = elements (get config "stages"))
    by now rewrite He.
  assert (Hinit : initialState e = VUndefined) by now rewrite He.
  unfold after_calls.
  destruct (snd (run calls (mkMachine e h))) as [e' h'].
  cbn [this host] in *.
  destruct (valid_engine_updateUI e' Hv') as [u Hu].
  assert (H0 : 0 < List.length (stages e'))
    by (apply valid_engine_index in Hv'; lia).
  destruct (element_in_range (stages e') 0 H0) as (name & Hn & Hel).
  rewrite (reset_eq e' h' u Hu). cbn [fst snd].
  erewrite reset_eq by exact Hu. cbn.
  rewrite Hi, Hinit.
  repeat split.
  - intros t Ht. rewrite Ht. intros Hin.
    apply in_map_iff in Hin as ([t' d] & Heq & Hin). cbn in Heq. subst t'.
    apply filter_In in Hin as [_ Hin]. cbn in Hin.
    rewrite Nat.eqb_refl in Hin. discriminate Hin.
  - exists name. split.
    + now rewrite <- Hstages, <- Hs.
    + now rewrite Hel.
Qed.

(** ** Stage functions that return a promise *)

(** C8. [nextStage] does not wait for a promise that a stage function
    returns: in the same call the promise becomes [currentState], the
    index moves on and [updateUI] is called with the promise. *)
Theorem nextStage_does_not_await (e : MICT) (h : Host) (p : nat) :
  valid_engine e = true ->
  truthy (current_stageFunction e) = true ->
  fst (nextStage (Normal (VPromise p)) (mkMachine e h)) = Normal tt
  /\ currentState
       (this (snd (nextStage (Normal (VPromise p)) (mkMachine e h))))
     = VPromise p
  /\ currentStageIndex
       (this (snd (nextStage (Normal (VPromise p)) (mkMachine e h))))
     = (currentStageIndex e + 1) mod List.length (stages e)
  /\ exists f name,
       nth_error (stages e)
         ((currentStageIndex e + 1) mod List.length (stages e)) = Some name
       /\ trace (host (snd (nextStage (Normal (VPromise p))
                              (mkMachine e h))))
          = UpdateUICall (VPromise p) (VStr name)
            :: StageFunctionCall f (currentState e) :: trace h.
Proof.
  intros Hv Ht.
  destruct (valid_engine_updateUI e Hv) as [u Hu].
  destruct (valid_engine_stageFunction e Hv Ht) as [f Hf].
  destruct (element_in_range (stages e) _ (next_index_in_range e Hv))
    as (name & Hn & He).
  rewrite (nextStage_returned e h (VPromise p) f u Hf Hu). cbn.
  repeat split. exists f, name. now rewrite He.
Qed.

(** ** [startCycle] *)

Lemma truthy_or_else (a b : value) :
  truthy (or_else a b) = truthy a || truthy b.
Proof.
  unfold or_else. destruct (truthy a) eqn:Ha; [exact Ha | reflexivity].
Qed.

(** C5 as the specification states it fails: with a negative interval and
    no default, neither is positive, and a timer is started. *)
Lemma startCycle_negative_interval_is_scheduled :
  ~ (forall (e : MICT) (h : Host) (n d : Z),
       interval e = VNum d -> (n <= 0)%Z -> (d <= 0)%Z ->
       intervalId (this (snd (startCycle (VNum n) (mkMachine e h)))) = None).
Proof.
  intros H.
  specialize (H sample_engine fresh_host (-5)%Z 0%Z eq_refl).
  cbn in H. discriminate H; lia.
Qed.

(** C5, amended. [startCycle(interval)] first stops the timer that is
    active, if any, with a warning.  The delay it uses is [interval] when
    that is truthy, else the default of the configuration when that is
    truthy; the new timer is added to those that were left and its handle
    is kept.  When neither is truthy a warning is written, no timer is
    started and the handle is absent. *)
Theorem startCycle_uses_truthy_interval (e : MICT) (h : Host)
    (arg : value) :
  fst (startCycle arg (mkMachine e h)) = Normal tt
  /\ (truthy arg = true ->
      intervalId (this (snd (startCycle arg (mkMachine e h))))
      = Some (next_timer h)
      /\ timers (host (snd (startCycle arg (mkMachine e h))))
         = (next_timer h, arg)
           :: timers (host (snd (stopCycle (mkMachine e h)))))
  /\ (truthy arg = false -> truthy (interval e) = true ->
      intervalId (this (snd (startCycle arg (mkMachine e h))))
      = Some (next_timer h)
      /\ timers (host (snd (startCycle arg (mkMachine e h))))
         = (next_timer h, interval e)
           :: timers (host (snd (stopCycle (mkMachine e h)))))
  /\ (truthy arg = false -> truthy (interval e) = false ->
      intervalId (this (snd (startCycle arg (mkMachine e h)))) = None
      /\ timers (host (snd (startCycle arg (mkMachine e h))))
         = timers (host (snd (stopCycle (mkMachine e h))))
      /\ exists earlier,
           trace (host (snd (startCycle arg (mkMachine e h))))
           = ConsoleWarn
               "MICT cycle started without an interval.  Call nextStage() manually."
             :: earlier)
  /\ (forall t, intervalId e = Some t ->
      ~ In t (map fst (timers (host (snd (stopCycle (mkMachine e h))))))
      /\ In (ConsoleWarn
               "MICT cycle is already running.  Stopping the previous cycle.")
            (trace (host (snd (startCycle arg (mkMachine e h))))))
  /\ (intervalId e = None ->
      timers (host (snd (stopCycle (mkMachine e h)))) = timers h).
Proof.
  rewrite (startCycle_eq e h arg), (stopCycle_eq e h), truthy_or_else.
  unfold or_else.
  split; [|split; [|split; [|split; [|split]]]].
  - destruct (intervalId e), (truthy arg), (truthy (interval e)); reflexivity.
  - intros ->. destruct (intervalId e); cbn; split; reflexivity.
  - intros -> ->. destruct (intervalId e); cbn; split; reflexivity.
  - intros -> ->.
    destruct (intervalId e) eqn:Hi; cbn; rewrite ?Hi;
      (split; [reflexivity|]); (split; [reflexivity|]);
      eexists; reflexivity.
  - intros t ->. cbn. split.
    + intros Hin.
      apply in_map_iff in Hin as ([t' d] & Heq & Hin). cbn in Heq. subst t'.
      apply filter_In in Hin as [_ Hin]. cbn in Hin.
      rewrite Nat.eqb_refl in Hin. discriminate Hin.
    + destruct (truthy arg), (truthy (interval e)); cbn;
        first [left; reflexivity | right; left; reflexivity].
  - intros ->. reflexivity.
Qed.

(** * Further properties of the engine *)

(** ** Successful advances *)

(** A call of [nextStage] whose stage function, if any, returns: where the
    instance goes. *)
Lemma stages_callable_frame (e e' : MICT) :
  stages e' = stages e ->
  stageFunctions e' = stageFunctions e ->
  stages_callable e' = stages_callable e.
Proof.
  unfold stages_callable. now intros -> ->.
Qed.

Lemma stages_callable_current (e : MICT) :
  valid_engine e = true ->
  stages_callable e = true ->
  truthy (current_member e) = true ->
  exists f, current_member e = VFunction f.
Proof.
  intros Hv Hc Ht.
  destruct (element_in_range (stages e) (currentStageIndex e)
              (valid_engine_index e Hv)) as (name & Hn & He).
  unfold current_member in *. rewrite He in *. cbn [stage_text] in *.
  unfold stages_callable in Hc. rewrite forallb_forall in Hc.
  apply nth_error_In in Hn. apply Hc in Hn. rewrite Ht in Hn.
  now apply typeof_function.
Qed.

Lemma nextStage_Normal_step (e : MICT) (h : Host) (v : value) :
  valid_engine e = true ->
  stages_callable e = true ->
  exists e' h',
    nextStage (Normal v) (mkMachine e h) = (Normal tt, mkMachine e' h')
    /\ valid_engine e' = true
    /\ stages_callable e' = true
    /\ stages e' = stages e
    /\ stageFunctions e' = stageFunctions e
    /\ currentStageIndex e'
       = (currentStageIndex e + 1) mod List.length (stages e)
    /\ currentState e'
       = (if truthy (current_member e)
          then match v with VUndefined => currentState e | _ => v end
          else currentState e)
    /\ previousState e'
       = (if truthy (current_member e)
          then currentState e else previousState e).
Proof.
  intros Hv Hc.
  destruct (valid_engine_updateUI e Hv) as [u Hu].
  destruct (truthy (current_member e)) eqn:Ht.
  - destruct (stages_callable_current e Hv Hc Ht) as [f Hf].
    rewrite (nextStage_member_returned e h v f u Hf Hu).
    eexists; eexists. split; [reflexivity|].
    split; [|split; [|cbn; repeat split]].
    + apply (valid_engine_frame e _ Hv); try reflexivity.
      now apply next_index_in_range.
    + rewrite <- Hc. now apply stages_callable_frame.
  - rewrite (nextStage_skip e h (Normal v) u Ht Hu).
    eexists; eexists. split; [reflexivity|].
    split; [|split; [|cbn; repeat split]].
    + apply (valid_engine_frame e _ Hv); try reflexivity.
      now apply next_index_in_range.
    + rewrite <- Hc. now apply stages_callable_frame.
Qed.

Lemma next_index_add (i k n : nat) :
  ((i + 1) mod n + k) mod n = (i + S k) mod n.
Proof.
  rewrite Nat.Div0.add_mod_idemp_l. f_equal. lia.
Qed.

(** X1. Wrap-around. When every stage name finds nothing or a function
    in [stageFunctions], own or inherited, then after [k] calls of
    [nextStage] in which no function called as a stage function throws,
    each call has completed normally and the index is [(i + k) mod n];
    after as many calls as there are stages the index is back where it
    was. *)
Theorem successful_advances_wrap (e : MICT) (h : Host)
    (results : list value) :
  valid_engine e = true ->
  stages_callable e = true ->
  Forall (fun r => r = Normal tt)
    (fst (run (successful_advances results) (mkMachine e h)))
  /\ currentStageIndex (this (after_calls (successful_advances results) e h))
     = (currentStageIndex e + List.length results)
       mod List.length (stages e)
  /\ (List.length results = List.length (stages e) ->
      currentStageIndex
        (this (after_calls (successful_advances results) e h))
      = currentStageIndex e).
Proof.
  intros Hv Hc.
  assert (H : Forall (fun r => r = Normal tt)
                (fst (run (successful_advances results) (mkMachine e h)))
              /\ currentStageIndex
                   (this (after_calls (successful_advances results) e h))
                 = (currentStageIndex e + List.length results)
                   mod List.length (stages e)).
  { unfold after_calls. revert e h Hv Hc.
    induction results as [|v rest IH]; intros e h Hv Hc;
      unfold successful_advances; cbn [map run perform fst snd List.length].
    - split; [constructor|]. cbn.
      rewrite Nat.add_0_r. symmetry. apply Nat.mod_small.
      now apply valid_engine_index.
    - destruct (nextStage_Normal_step e h v Hv Hc)
        as (e' & h' & Hstep & Hv' & Hc' & Hs & _ & Hi & _).
      rewrite Hstep. fold (successful_advances rest).
      destruct (IH e' h' Hv' Hc') as (Hall & Hidx).
      destruct (run (successful_advances rest) (mkMachine e' h'))
        as [rs m']. cbn [fst snd] in *.
      split; [constructor; auto|].
      rewrite Hidx, Hs, Hi. apply next_index_add. }
  destruct H as (Hall & Hidx). split; [exact Hall|]. split; [exact Hidx|].
  intros Hlen. rewrite Hidx, Hlen.
  rewrite <- Nat.Div0.add_mod_idemp_r, Nat.Div0.mod_same, Nat.add_0_r.
  apply Nat.mod_small. now apply valid_engine_index.
Qed.

(** ** Pure stage functions *)

Lemma cycle_from_S (names : list string) (i k : nat) :
  i < List.length names ->
  cycle_from names i (S k)
  = nth i names ""
    :: cycle_from names ((i + 1) mod List.length names) k.
Proof.
  intros Hi. unfold cycle_from. cbn [seq map].
  rewrite Nat.add_0_r, (Nat.mod_small i _ Hi). f_equal.
  rewrite <- seq_shift, map_map.
  apply map_ext. intros j. now rewrite next_index_add.
Qed.

Lemma stage_step_current (apply : nat -> value -> completion value)
    (e : MICT) :
  valid_engine e = true ->
  stages_callable e = true ->
  (forall f s, exists v, apply f s = Normal v) ->
  exists v,
    stage_result apply e = Normal v
    /\ stage_step apply (stageFunctions e) (currentState e)
         (nth (currentStageIndex e) (stages e) "")
       = (if truthy (current_member e)
          then match v with VUndefined => currentState e | _ => v end
          else currentState e).
Proof.
  intros Hv Hc Hpure.
  destruct (element_in_range (stages e) (currentStageIndex e)
              (valid_engine_index e Hv)) as (name & Hn & He).
  rewrite (nth_error_nth _ _ "" Hn).
  unfold stage_result, stage_step.
  assert (Hget : member (stageFunctions e) name = current_member e).
  { unfold current_member. now rewrite He. }
  rewrite Hget.
  destruct (truthy (current_member e)) eqn:Ht.
  - destruct (stages_callable_current e Hv Hc Ht) as [f Hf]. rewrite Hf.
    destruct (Hpure f (currentState e)) as [v Hr]. rewrite Hr.
    exists v. split; [reflexivity|]. destruct v; reflexivity.
  - exists VUndefined. destruct (current_member e);
      try discriminate Ht; split; reflexivity.
Qed.

(** X2. State threading. When every stage name finds nothing or a function
    in [stageFunctions], own or inherited, and these functions have no
    effect and do not throw, [k] calls of [nextStage] leave in
    [currentState] the result of running the stages from the current one
    on, in the order of the cycle, each on the state the one before left;
    a stage under whose name nothing is found, or whose function returns
    [undefined], keeps the state. *)
Theorem advance_n_threads_state
    (apply : nat -> value -> completion value) (e : MICT) (h : Host)
    (k : nat) :
  valid_engine e = true ->
  stages_callable e = true ->
  (forall f s, exists v, apply f s = Normal v) ->
  currentState (this (advance_n apply k (mkMachine e h)))
  = fold_left (stage_step apply (stageFunctions e))
      (cycle_from (stages e) (currentStageIndex e) k) (currentState e)
  /\ currentStageIndex (this (advance_n apply k (mkMachine e h)))
     = (currentStageIndex e + k) mod List.length (stages e).
Proof.
  intros Hv Hc Hpure. revert e h Hv Hc.
  induction k as [|k IH]; intros e h Hv Hc.
  - cbn. split; [reflexivity|].
    rewrite Nat.add_0_r. symmetry. apply Nat.mod_small.
    now apply valid_engine_index.
  - cbn [advance_n]. unfold advance_with. cbn [this].
    destruct (stage_step_current apply e Hv Hc Hpure) as (v & Hr & Hstep).
    rewrite Hr.
    destruct (nextStage_Normal_step e h v Hv Hc)
      as (e' & h' & Hnext & Hv' & Hc' & Hs & Hf & Hi & Hcur & _).
    rewrite Hnext. cbn [snd].
    destruct (IH e' h' Hv' Hc') as (Hstate & Hidx).
    rewrite Hstate, Hidx, Hs, Hf, Hi, Hcur, <- Hstep.
    rewrite (cycle_from_S _ _ _ (valid_engine_index e Hv)).
    split; [reflexivity|]. apply next_index_add.
Qed.

(** ** Any sequence of calls *)

(** The paths of a call on a valid instance, each with the equation of its
    outcome. *)
Ltac perform_cases e h c Hv :=
  let u := fresh "u" in
  let Hu := fresh "Hu" in
  let r := fresh "r" in
  let f := fresh "f" in
  let Hf := fresh "Hf" in
  let Ht := fresh "Ht" in
  let Hty := fresh "Hty" in
  let Hh := fresh "Hh" in
  let He := fresh "He" in
  let Hid := fresh "Hid" in
  let Harg := fresh "Harg" in
  destruct (valid_engine_updateUI e Hv) as [u Hu];
  destruct c as [r|?v| |?arg|]; cbn [perform];
  [ destruct (truthy (current_member e)) eqn:Ht;
    [ destruct (typeof (current_member e) =? "function") eqn:Hty;
      [ apply typeof_function in Hty as [f Hf];
        destruct r as [?v|?error];
        [ rewrite (nextStage_member_returned e h _ f u Hf Hu)
        | rewrite (nextStage_member_thrown e h _ f Hf);
          destruct (truthy (errorHandler e)) eqn:Hh;
          [ destruct (errorHandler e) eqn:He | ] ]
      | rewrite (nextStage_member_uncallable e h r Ht Hty);
        destruct (truthy (errorHandler e)) eqn:Hh;
        [ destruct (errorHandler e) eqn:He | ] ]
    | rewrite (nextStage_skip e h r u Ht Hu) ]
  | rewrite (setState_eq e h _ u Hu)
  | rewrite (reset_eq e h u Hu);
    destruct (intervalId e) eqn:Hid
  | rewrite (startCycle_eq e h _);
    destruct (intervalId e) eqn:Hid;
    destruct (truthy (or_else _ (interval e))) eqn:Harg
  | rewrite (stopCycle_eq e h);
    destruct (intervalId e) eqn:Hid ].

Lemma perform_completes (c : call) (e : MICT) (h : Host) :
  valid_engine e = true ->
  ((exists g, errorHandler e = VFunction g)
   \/ truthy (errorHandler e) = false) ->
  fst (perform c (mkMachine e h)) = Normal tt
  /\ errorHandler (this (snd (perform c (mkMachine e h)))) = errorHandler e.
Proof.
  intros Hv Hok.
  perform_cases e h c Hv; cbn; try rewrite ?He; try (split; reflexivity);
    destruct Hok as [[g Hg]|Hg]; congruence.
Qed.

(** X3. On an instance that the constructor returned from a configuration
    whose [errorHandler] is a function or is absent, no call of
    [nextStage], [setState], [reset], [startCycle] or [stopCycle] ever
    throws, whatever the stage functions do. *)
Theorem methods_never_throw (config : value) (e : MICT) (h : Host)
    (calls : list call) :
  constructor config = Normal e ->
  typeof (get config "errorHandler") = "function"
  \/ truthy (get config "errorHandler") = false ->
  Forall (fun r => r = Normal tt) (fst (run calls (mkMachine e h))).
Proof.
  intros Hc Hcfg. pose proof (constructor_valid config e Hc) as Hv.
  assert (Hok : (exists g, errorHandler e = VFunction g)
                \/ truthy (errorHandler e) = false).
  { apply constructor_Normal in Hc as (_ & _ & _ & _ & _ & _ & ->).
    cbn [errorHandler]. unfold or_else.
    destruct Hcfg as [Hfn|Hfalsy].
    - left. destruct (get config "errorHandler"); try discriminate Hfn.
      eexists; reflexivity.
    - right. now rewrite Hfalsy. }
  clear Hc Hcfg. revert e h Hv Hok.
  induction calls as [|c rest IH]; intros e h Hv Hok; cbn [run].
  - constructor.
  - destruct (perform_completes c e h Hv Hok) as (Hr & Heh).
    destruct (perform_frame c (mkMachine e h) Hv) as (Hv' & _).
    destruct (perform c (mkMachine e h)) as [r [e' h']].
    cbn [fst snd this] in *.
    rewrite <- Heh in Hok.
    specialize (IH e' h' Hv' Hok).
    destruct (run rest (mkMachine e' h')) as [rs m'']. cbn [fst] in *.
    constructor; assumption.
Qed.

Lemma perform_callback_stages (c : call) (e : MICT) (h : Host) :
  valid_engine e = true ->
  Forall (fun stage => exists name, stage = VStr name /\ In name (stages e))
    (callback_stages (trace h)) ->
  Forall (fun stage => exists name, stage = VStr name /\ In name (stages e))
    (callback_stages (trace (host (snd (perform c (mkMachine e h)))))).
Proof.
  intros Hv Hold.
  assert (Hel : forall i, i < List.length (stages e) ->
                exists name, element (stages e) i = VStr name
                             /\ In name (stages e)).
  { intros i Hi.
    destruct (element_in_range (stages e) i Hi) as (name & Hn & He).
    exists name. split; [exact He|]. now apply nth_error_In in Hn. }
  pose proof (Hel _ (valid_engine_index e Hv)) as Hcur.
  pose proof (Hel _ (next_index_in_range e Hv)) as Hnext.
  assert (H0 : 0 < List.length (stages e))
    by (apply valid_engine_index in Hv; lia).
  pose proof (Hel 0 H0) as Hfirst.
  perform_cases e h c Hv; cbn; try assumption;
    try (constructor; assumption).
Qed.

(** X4. On an instance that the constructor returned, every call of
    [updateUI] and of the error handler is given the name of one of the
    configured stages as its stage, never [undefined]. *)
Theorem callbacks_get_stage_names (config : value) (e : MICT) (h : Host)
    (calls : list call) :
  constructor config = Normal e ->
  callback_stages (trace h) = [] ->
  Forall (fun stage =>
            exists name,
              stage = VStr name /\ In name (elements (get config "stages")))
    (callback_stages (trace (host (after_calls calls e h)))).
Proof.
  intros Hc Hempty. pose proof (constructor_valid config e Hc) as Hv.
  assert (Hs : stages e = elements (get config "stages")).
  { now apply constructor_Normal in Hc as (_ & _ & _ & _ & _ & _ & ->). }
  rewrite <- Hs.
  assert (Hold : Forall (fun stage => exists name,
                           stage = VStr name /\ In name (stages e))
                   (callback_stages (trace h)))
    by (rewrite Hempty; constructor).
  clear Hc Hs Hempty. unfold after_calls.
  assert (Hgen : forall e0 h0,
             valid_engine e0 = true -> stages e0 = stages e ->
             Forall (fun stage => exists name,
                       stage = VStr name /\ In name (stages e))
               (callback_stages (trace h0)) ->
             Forall (fun stage => exists name,
                       stage = VStr name /\ In name (stages e))
               (callback_stages
                  (trace (host (snd (run calls (mkMachine e0 h0))))))).
  { induction calls as [|c rest IH]; intros e0 h0 Hv0 Hs0 Hold0; cbn [run].
    - exact Hold0.
    - pose proof (perform_callback_stages c e0 h0 Hv0) as Hstep.
      rewrite Hs0 in Hstep. specialize (Hstep Hold0).
      destruct (perform_frame c (mkMachine e0 h0) Hv0) as (Hv' & Hs' & _).
      destruct (perform c (mkMachine e0 h0)) as [r [e' h']].
      cbn [fst snd this host] in *.
      assert (Hs'' : stages e' = stages e) by congruence.
      specialize (IH e' h' Hv' Hs'' Hstep).
      destruct (run rest (mkMachine e' h')) as [rs m'']. exact IH. }
  now apply Hgen.
Qed.

(** ** Timers *)

Lemma filter_own_timer (others : list (nat * value)) (first t : nat)
    (d : value) :
  (forall timer, In timer others -> fst timer < first) ->
  first <= t ->
  filter (fun timer => negb (fst timer =? t)%nat) ((t, d) :: others)
  = others.
Proof.
  intros Hothers Ht. cbn. rewrite Nat.eqb_refl. cbn.
  induction others as [|[t' d'] rest IH]; cbn; [reflexivity|].
  assert (Hlt : t' < first) by (apply (Hothers (t', d')); now left).
  destruct (Nat.eqb_spec t' t) as [->|Hne]; [lia|]. cbn.
  f_equal. apply IH. intros timer Hin. apply Hothers. now right.
Qed.

Lemma filter_other_timers (others : list (nat * value)) (first t : nat) :
  (forall timer, In timer others -> fst timer < first) ->
  first <= t ->
  filter (fun timer => negb (fst timer =? t)%nat) others = others.
Proof.
  intros Hothers Ht.
  induction others as [|[t' d'] rest IH]; cbn; [reflexivity|].
  assert (Hlt : t' < first) by (apply (Hothers (t', d')); now left).
  destruct (Nat.eqb_spec t' t) as [->|Hne]; [lia|]. cbn.
  f_equal. apply IH. intros timer Hin. apply Hothers. now right.
Qed.

Lemma perform_owns_at_most_one (c : call) (e : MICT) (h : Host)
    (others : list (nat * value)) (first : nat) :
  valid_engine e = true ->
  (forall timer, In timer others -> fst timer < first) ->
  owns_at_most_one others first e h ->
  owns_at_most_one others first
    (this (snd (perform c (mkMachine e h))))
    (host (snd (perform c (mkMachine e h)))).
Proof.
  intros Hv Hothers (Hfirst & Hown).
  assert (Hsome : forall t, intervalId e = Some t ->
            first <= t
            /\ filter (fun timer => negb (fst timer =? t)%nat) (timers h)
               = others).
  { intros t Ht. destruct Hown as [[Hn _]|(t' & d & Hi & Hle & _ & _ & Htm)];
      [congruence|].
    assert (t' = t) by congruence. subst t'. split; [exact Hle|].
    rewrite Htm. now apply (filter_own_timer others first). }
  assert (Hnone : intervalId e = None -> timers h = others).
  { intros Hn. destruct Hown as [[_ Htm]|(t' & d & Hi & _)];
      [exact Htm | congruence]. }
  unfold owns_at_most_one.
  perform_cases e h c Hv;
    cbn [this host snd fst intervalId timers next_timer
         set_currentStageIndex set_currentState set_previousState
         set_intervalId];
    try (split; [exact Hfirst | exact Hown]).
  all: try (destruct (Hsome _ eq_refl) as (Hle & Hflt); rewrite ?Hflt).
  all: try rewrite ?(Hnone eq_refl).
  all: try rewrite Hid.
  all: (split; [lia|]).
  all: first
         [ left; split; reflexivity
         | right; eexists; eexists;
           split; [reflexivity|];
           split; [lia|]; split; [lia|];
           split; [exact Harg | reflexivity] ].
Qed.

(** X5. From a new instance and a host whose timers have handles that
    [setInterval] has given out, after any sequence of calls the host has the timers it had at first
    and at most one more: the one whose handle the instance holds, with a
    truthy delay.  The engine never runs two timers and never touches a
    timer that is not its own. *)
Theorem engine_owns_at_most_one_timer (config : value) (e : MICT)
    (h : Host) (calls : list call) :
  constructor config = Normal e ->
  host_fresh h = true ->
  (intervalId (this (after_calls calls e h)) = None
   /\ timers (host (after_calls calls e h)) = timers h)
  \/ (exists t d,
        intervalId (this (after_calls calls e h)) = Some t
        /\ truthy d = true
        /\ timers (host (after_calls calls e h)) = (t, d) :: timers h).
Proof.
  intros Hc Hfresh. pose proof (constructor_valid config e Hc) as Hv.
  assert (Hothers : forall timer, In timer (timers h) ->
                    fst timer < next_timer h).
  { unfold host_fresh in Hfresh. rewrite forallb_forall in Hfresh.
    intros timer Hin. apply Nat.ltb_lt. now apply Hfresh. }
  assert (Hinit : owns_at_most_one (timers h) (next_timer h) e h).
  { split; [lia|]. left. split; [|reflexivity].
    now apply constructor_Normal in Hc as (_ & _ & _ & _ & _ & _ & ->). }
  assert (Hgen : forall e0 h0,
            valid_engine e0 = true ->
            owns_at_most_one (timers h) (next_timer h) e0 h0 ->
            owns_at_most_one (timers h) (next_timer h)
              (this (snd (run calls (mkMachine e0 h0))))
              (host (snd (run calls (mkMachine e0 h0))))).
  { clear Hc Hv Hinit. induction calls as [|c rest IH];
      intros e0 h0 Hv0 Hown0; cbn [run].
    - exact Hown0.
    - pose proof (perform_owns_at_most_one c e0 h0 _ _ Hv0 Hothers Hown0)
        as Hstep.
      destruct (perform_frame c (mkMachine e0 h0) Hv0) as (Hv' & _).
      destruct (perform c (mkMachine e0 h0)) as [r [e' h']].
      cbn [fst snd this host] in *.
      specialize (IH e' h' Hv' Hstep).
      destruct (run rest (mkMachine e' h')) as [rs m'']. exact IH. }
  destruct (Hgen e h Hv Hinit) as (_ & Hown). unfold after_calls.
  destruct Hown as [Hnone|(t & d & Hi & _ & _ & Hd & Htm)].
  - now left.
  - right. exists t, d. auto.
Qed.

Lemma nothing_found_no_member (e : MICT) :
  valid_engine e = true ->
  (forall name, In name (stages e) ->
     truthy (member (stageFunctions e) name) = false) ->
  truthy (current_member e) = false.
Proof.
  intros Hv Hnone.
  destruct (element_in_range (stages e) (currentStageIndex e)
              (valid_engine_index e Hv)) as (name & Hn & He).
  unfold current_member. rewrite He. cbn [stage_text].
  apply Hnone. now apply nth_error_In in Hn.
Qed.

Lemma advances_without_stageFunctions (results : list (completion value)) :
  forall (e : MICT) (h : Host),
    valid_engine e = true ->
    (forall name, In name (stages e) ->
       truthy (member (stageFunctions e) name) = false) ->
    Forall (fun r => r = Normal tt)
      (fst (run (map CallNextStage results) (mkMachine e h)))
    /\ currentState (this (snd (run (map CallNextStage results)
                                  (mkMachine e h)))) = currentState e
    /\ previousState (this (snd (run (map CallNextStage results)
                                   (mkMachine e h)))) = previousState e
    /\ currentStageIndex (this (snd (run (map CallNextStage results)
                                       (mkMachine e h))))
       = (currentStageIndex e + List.length results)
         mod List.length (stages e).
Proof.
  induction results as [|r rest IH]; intros e h Hv Hnone;
    cbn [map run perform fst snd List.length].
  - split; [constructor|]. cbn. split; [reflexivity|].
    split; [reflexivity|].
    rewrite Nat.add_0_r. symmetry. apply Nat.mod_small.
    now apply valid_engine_index.
  - destruct (valid_engine_updateUI e Hv) as [u Hu].
    rewrite (nextStage_skip e h r u (nothing_found_no_member e Hv Hnone) Hu).
    assert (Hv' : valid_engine
                    (set_currentStageIndex
                       ((currentStageIndex e + 1) mod List.length (stages e))
                       e) = true).
    { apply (valid_engine_frame e _ Hv); try reflexivity.
      now apply next_index_in_range. }
    match goal with
    | |- context [run _ (mkMachine ?e1 ?h1)] =>
        destruct (IH e1 h1 Hv' Hnone) as (Hall & Hc & Hp & Hi);
        destruct (run (map CallNextStage rest) (mkMachine e1 h1))
          as [rs m']
    end.
    cbn [fst snd] in *.
    split; [constructor; auto|].
    split; [exact Hc|]. split; [exact Hp|].
    rewrite Hi. cbn. apply next_index_add.
Qed.

(** X6. An instance made from a configuration without [stageFunctions],
    none of whose stage names is the name of a member that an empty object
    inherits, never changes its state by [nextStage]: after any number of
    calls [currentState] is the [initialState] of the configuration,
    [previousState] is [null], no call has thrown and the index is the
    number of calls modulo the number of stages. *)
Theorem no_stageFunctions_state_is_constant (config : value) (e : MICT)
    (h : Host) (results : list (completion value)) :
  constructor config = Normal e ->
  truthy (get config "stageFunctions") = false ->
  (forall name, In name (elements (get config "stages")) ->
     truthy (inherited (VObject []) name) = false) ->
  Forall (fun r => r = Normal tt)
    (fst (run (map CallNextStage results) (mkMachine e h)))
  /\ currentState (this (after_calls (map CallNextStage results) e h))
     = get config "initialState"
  /\ previousState (this (after_calls (map CallNextStage results) e h))
     = VNull
  /\ currentStageIndex (this (after_calls (map CallNextStage results) e h))
     = List.length results mod List.length (elements (get config "stages")).
Proof.
  intros Hc Hfalsy Hplain. pose proof (constructor_valid config e Hc) as Hv.
  apply constructor_Normal in Hc as (_ & _ & _ & _ & _ & _ & He).
  assert (Hnone : forall name, In name (stages e) ->
                  truthy (member (stageFunctions e) name) = false).
  { rewrite He. cbn [stageFunctions stages]. unfold or_else.
    rewrite Hfalsy. intros name Hin.
    rewrite member_inherited; [now apply Hplain | intros []]. }
  destruct (advances_without_stageFunctions results e h Hv Hnone)
    as (Hall & Hstate & Hprev & Hidx).
  unfold after_calls. rewrite Hstate, Hprev, Hidx.
  split; [exact Hall|]. rewrite He. cbn. auto.
Qed.

(** ** More on timers *)

(** X7. [stopCycle] never throws and writes nothing; afterwards the
    instance holds no handle; without an active timer it changes nothing,
    so a second [stopCycle] is without effect; and it leaves every timer
    of the host other than the engine's own. *)
Theorem stopCycle_idempotent (e : MICT) (h : Host) :
  fst (stopCycle (mkMachine e h)) = Normal tt
  /\ intervalId (this (snd (stopCycle (mkMachine e h)))) = None
  /\ trace (host (snd (stopCycle (mkMachine e h)))) = trace h
  /\ (intervalId e = None ->
      stopCycle (mkMachine e h) = (Normal tt, mkMachine e h))
  /\ stopCycle (snd (stopCycle (mkMachine e h)))
     = (Normal tt, snd (stopCycle (mkMachine e h)))
  /\ (forall timer,
        In timer (timers h) -> intervalId e <> Some (fst timer) ->
        In timer (timers (host (snd (stopCycle (mkMachine e h)))))).
Proof.
  rewrite (stopCycle_eq e h). cbn [fst snd].
  destruct (intervalId e) as [t|] eqn:Hid; cbn [this host intervalId trace
    timers set_intervalId].
  - repeat split.
    + discriminate.
    + intros timer Hin Hne. apply filter_In. split; [exact Hin|].
      cbv beta.
      destruct (Nat.eqb_spec (fst timer) t) as [Heq|Hneq];
        [elim Hne; now rewrite Heq | reflexivity].
  - rewrite (stopCycle_eq e h), Hid. repeat split; auto.
Qed.

(** X8. Restart. Two calls of [startCycle] with truthy intervals on an
    instance without a timer leave one timer more than the host had, with
    the delay of the second call: the timer of the first call is cleared,
    with a warning. *)
Theorem startCycle_restart (e : MICT) (h : Host) (a b : value) :
  intervalId e = None ->
  host_fresh h = true ->
  truthy a = true ->
  truthy b = true ->
  fst (startCycle b (snd (startCycle a (mkMachine e h)))) = Normal tt
  /\ intervalId
       (this (snd (startCycle b (snd (startCycle a (mkMachine e h))))))
     = Some (S (next_timer h))
  /\ timers (host (snd (startCycle b (snd (startCycle a (mkMachine e h))))))
     = (S (next_timer h), b) :: timers h
  /\ trace (host (snd (startCycle b (snd (startCycle a (mkMachine e h))))))
     = ConsoleWarn
         "MICT cycle is already running.  Stopping the previous cycle."
       :: trace h.
Proof.
  intros Hid Hfresh Ha Hb.
  assert (Hothers : forall timer, In timer (timers h) ->
                    fst timer < next_timer h).
  { unfold host_fresh in Hfresh. rewrite forallb_forall in Hfresh.
    intros timer Hin. apply Nat.ltb_lt. now apply Hfresh. }
  rewrite (startCycle_eq e h a), Hid, truthy_or_else, Ha.
  cbn [orb fst snd this host].
  rewrite startCycle_eq.
  cbn [intervalId set_intervalId interval timers trace next_timer this host].
  rewrite truthy_or_else, Hb. cbn [orb fst snd this host intervalId
    set_intervalId timers trace next_timer].
  unfold or_else. rewrite Ha, Hb.
  rewrite (filter_own_timer (timers h) (next_timer h) (next_timer h) a
             Hothers (le_n _)).
  repeat split.
Qed.

(** ** How the methods compose *)

(** X9. A state put in with [setState] is what the next stage function is
    called with, and what [getPreviousState()] returns once that function
    has returned. *)
Theorem setState_then_nextStage (e : MICT) (h : Host) (v w : value) :
  valid_engine e = true ->
  truthy (current_stageFunction e) = true ->
  fst (nextStage (Normal w) (snd (setState v (mkMachine e h)))) = Normal tt
  /\ fst (getPreviousState
            (snd (nextStage (Normal w) (snd (setState v (mkMachine e h))))))
     = Normal v
  /\ (w <> VUndefined ->
      currentState
        (this (snd (nextStage (Normal w) (snd (setState v (mkMachine e h))))))
      = w)
  /\ (w = VUndefined ->
      currentState
        (this (snd (nextStage (Normal w) (snd (setState v (mkMachine e h))))))
      = v)
  /\ exists f observed,
       current_stageFunction e = VFunction f
       /\ trace (host (snd (nextStage (Normal w)
                              (snd (setState v (mkMachine e h))))))
          = observed :: StageFunctionCall f v
            :: trace (host (snd (setState v (mkMachine e h)))).
Proof.
  intros Hv Ht.
  destruct (valid_engine_updateUI e Hv) as [u Hu].
  destruct (valid_engine_stageFunction e Hv Ht) as [f Hf].
  rewrite (setState_eq e h v u Hu). cbn [snd].
  rewrite (nextStage_returned (set_currentState v e) _ w f u Hf Hu).
  cbn. split; [reflexivity|]. split; [reflexivity|].
  split; [destruct w; intros Hd; try reflexivity; now elim Hd|].
  split; [now intros ->|].
  exists f. eexists. split; [exact Hf | reflexivity].
Qed.

(** X10. [nextStage] and [setState] never touch the timer: whatever the
    stage function does, also when it throws, the handle of the instance
    and the timers of the host are as before, so a failing stage does not
    stop the automatic cycle. *)
Theorem nextStage_keeps_timer (e : MICT) (h : Host)
    (result : completion value) (v : value) :
  valid_engine e = true ->
  (intervalId (this (snd (nextStage result (mkMachine e h)))) = intervalId e
   /\ timers (host (snd (nextStage result (mkMachine e h)))) = timers h
   /\ next_timer (host (snd (nextStage result (mkMachine e h))))
      = next_timer h)
  /\ (intervalId (this (snd (setState v (mkMachine e h)))) = intervalId e
      /\ timers (host (snd (setState v (mkMachine e h)))) = timers h
      /\ next_timer (host (snd (setState v (mkMachine e h))))
         = next_timer h).
Proof.
  intros Hv. destruct (valid_engine_updateUI e Hv) as [u Hu]. split.
  - destruct (truthy (current_member e)) eqn:Ht.
    + destruct (typeof (current_member e) =? "function") eqn:Hty.
      * apply typeof_function in Hty as [f Hf].
        destruct result as [x|error].
        -- rewrite (nextStage_member_returned e h x f u Hf Hu). cbn. auto.
        -- rewrite (nextStage_member_thrown e h error f Hf).
           destruct (truthy (errorHandler e)); [destruct (errorHandler e)|];
             cbn; auto.
      * rewrite (nextStage_member_uncallable e h result Ht Hty).
        destruct (truthy (errorHandler e)); [destruct (errorHandler e)|];
          cbn; auto.
    + rewrite (nextStage_skip e h result u Ht Hu). cbn. auto.
  - rewrite (setState_eq e h v u Hu). cbn. auto.
Qed.

(** ** An error handler that is not a function *)

(** X11. The constructor does not check [errorHandler].  With one that is
    truthy and not a function, a stage function that throws makes
    [nextStage] throw a [TypeError] to its caller; the instance is as it
    was and neither [updateUI] nor the console is told. *)
Theorem nextStage_errorHandler_not_callable (e : MICT) (h : Host)
    (error : value) :
  valid_engine e = true ->
  truthy (current_stageFunction e) = true ->
  truthy (errorHandler e) = true ->
  typeof (errorHandler e) <> "function" ->
  fst (nextStage (Throw error) (mkMachine e h)) = Throw VTypeError
  /\ this (snd (nextStage (Throw error) (mkMachine e h))) = e
  /\ exists f,
       trace (host (snd (nextStage (Throw error) (mkMachine e h))))
       = StageFunctionCall f (currentState e) :: trace h.
Proof.
  intros Hv Ht Hh Hty.
  destruct (valid_engine_stageFunction e Hv Ht) as [f Hf].
  rewrite (nextStage_thrown e h error f Hf), Hh.
  destruct (errorHandler e); try (now elim Hty);
    cbn; repeat split; eexists; reflexivity.
Qed.

(** ** The messages of the constructor *)

Lemma validate_stageFunctions_skip (names before rest : list string)
    (fns : value) :
  (forall x, In x before ->
     In x names /\ typeof (get fns x) = "function") ->
  validate_stageFunctions names fns (before ++ rest)%list
  = validate_stageFunctions names fns rest.
Proof.
  induction before as [|x before IH]; intros Hok; cbn; [reflexivity|].
  destruct (Hok x (or_introl eq_refl)) as (Hin & Hty).
  apply includes_In in Hin. rewrite Hin, Hty. cbn.
  apply IH. intros y Hy. apply Hok. now right.
Qed.

(** X12. The constructor checks in this order and throws at the first
    failure, with these messages: the configuration, the stage list,
    [updateUI], then the keys of [stageFunctions] in turn, for each first
    that it is a stage (the message names the key and lists the stages)
    and then that its value is a function. *)
Theorem constructor_error_messages (config : value) :
  (config = VNull \/ typeof config <> "object" ->
   constructor config
   = Throw (VError "MICT constructor requires a configuration object."))
  /\ (config <> VNull -> typeof config = "object" ->
      isArray (get config "stages") = false
      \/ elements (get config "stages") = [] ->
      constructor config
      = Throw (VError
                 "MICT configuration must include a 'stages' array with at least one stage."))
  /\ (config <> VNull -> typeof config = "object" ->
      isArray (get config "stages") = true ->
      elements (get config "stages") <> [] ->
      typeof (get config "updateUI") <> "function" ->
      constructor config
      = Throw (VError
                 "MICT configuration must include an 'updateUI' function."))
  /\ (config <> VNull -> typeof config = "object" ->
      isArray (get config "stages") = true ->
      elements (get config "stages") <> [] ->
      typeof (get config "updateUI") = "function" ->
      forall (before : list string) (k : string) (rest : list string),
        keys (get config "stageFunctions") = (before ++ k :: rest)%list ->
        (forall x, In x before ->
           In x (elements (get config "stages"))
           /\ typeof (get (get config "stageFunctions") x) = "function") ->
        (~ In k (elements (get config "stages")) ->
         constructor config
         = Throw (VError
                    ("Invalid stage name '" ++ k
                     ++ "' in stageFunctions.  Must be one of: "
                     ++ join ", " (elements (get config "stages")))))
        /\ (In k (elements (get config "stages")) ->
            typeof (get (get config "stageFunctions") k) <> "function" ->
            constructor config
            = Throw (VError
                       ("stageFunctions['" ++ k
                        ++ "'] must be a function.")))).
Proof.
  assert (Htruthy : config <> VNull -> typeof config = "object" ->
                    truthy config = true).
  { intros Hn Ho. destruct config; try discriminate Ho; try reflexivity.
    now elim Hn. }
  split; [|split; [|split]].
  - intros [->|Hty]; [reflexivity|]. unfold constructor.
    destruct (String.eqb_spec (typeof config) "object") as [Ho|_];
      [now elim Hty|].
    now rewrite orb_true_r.
  - intros Hn Ho Hbad. unfold constructor.
    rewrite (Htruthy Hn Ho), Ho, String.eqb_refl. cbn [negb orb].
    destruct Hbad as [Ha|He].
    + now rewrite Ha.
    + rewrite He. cbn. now rewrite orb_true_r.
  - intros Hn Ho Ha He Hu. unfold constructor.
    rewrite (Htruthy Hn Ho), Ho, Ha, String.eqb_refl.
    cbn [negb orb].
    destruct (elements (get config "stages")) as [|name names];
      [now elim He|].
    cbn [List.length Nat.eqb].
    destruct (String.eqb_spec (typeof (get config "updateUI")) "function");
      [now elim Hu | reflexivity].
  - intros Hn Ho Ha He Hu before k rest Hkeys Hok.
    assert (Hc : constructor config
                 = match validate_stageFunctions
                           (elements (get config "stages"))
                           (or_else (get config "stageFunctions")
                              (VObject []))
                           (k :: rest) with
                   | Normal _ =>
                       Normal
                         {| stages := elements (get config "stages");
                            currentState := get config "initialState";
                            currentStageIndex := 0;
                            updateUI := get config "updateUI";
                            stageFunctions :=
                              or_else (get config "stageFunctions")
                                (VObject []);
                            intervalId := None;
                            interval :=
                              or_else (get config "interval") (VNum 0);
                            errorHandler :=
                              or_else (get config "errorHandler") VNull;
                            previousState := VNull;
                            initialState := VUndefined |}
                   | Throw error => Throw error
                   end).
    { unfold constructor.
      rewrite (Htruthy Hn Ho), Ho, Ha, Hu. rewrite !String.eqb_refl.
      cbn [negb orb].
      destruct (elements (get config "stages")) as [|name names] eqn:Hel;
        [now elim He|].
      cbn [List.length Nat.eqb stages stageFunctions].
      rewrite keys_or_empty, Hkeys.
      rewrite validate_stageFunctions_skip; [reflexivity|].
      intros x Hx. rewrite get_or_empty. now apply Hok. }
    rewrite Hc. cbn [validate_stageFunctions]. rewrite get_or_empty.
    split.
    + intros Hnot.
      destruct (includes (elements (get config "stages")) k) eqn:Hin;
        [apply includes_In in Hin; contradiction | reflexivity].
    + intros Hin Hty. apply includes_In in Hin. rewrite Hin. cbn [negb].
      destruct (String.eqb_spec
                  (typeof (get (get config "stageFunctions") k)) "function");
        [contradiction | reflexivity].
Qed.

(** X13. Retry. A call of [nextStage] whose stage function throws is
    followed by a call that runs the same stage function on the same
    state; once that returns, the instance is as if the failure had not
    happened. *)
Theorem failed_stage_is_retried (e : MICT) (h : Host) (error w : value) :
  valid_engine e = true ->
  truthy (current_stageFunction e) = true ->
  this (snd (nextStage (Normal w)
               (snd (nextStage (Throw error) (mkMachine e h)))))
  = this (snd (nextStage (Normal w) (mkMachine e h)))
  /\ exists f observed between,
       trace (host (snd (nextStage (Normal w)
                          (snd (nextStage (Throw error) (mkMachine e h))))))
       = observed :: StageFunctionCall f (currentState e)
         :: (between ++ StageFunctionCall f (currentState e) :: trace h)%list.
Proof.
  intros Hv Ht.
  destruct (valid_engine_updateUI e Hv) as [u Hu].
  destruct (valid_engine_stageFunction e Hv Ht) as [f Hf].
  rewrite (nextStage_thrown e h error f Hf).
  rewrite (nextStage_returned e h w f u Hf Hu).
  destruct (truthy (errorHandler e)); [destruct (errorHandler e)|];
    cbn [snd]; rewrite (nextStage_returned e _ w f u Hf Hu);
    cbn [snd this host trace]; (split; [reflexivity|]);
    exists f; eexists;
    first [ exists []; reflexivity
          | eexists [_]; reflexivity ].
Qed.

(** ** [shuffleString] *)

Section Swap.

Context {A : Type} (eq_dec : forall x y : A, {x = y} + {x <> y}).

Lemma update_length (i : nat) (x : A) (l : list A) :
  List.length (update i x l) = List.length l.
Proof.
  revert i. induction l as [|y rest IH]; intros [|i]; cbn; auto.
Qed.

Lemma nth_error_update (i j : nat) (x b : A) (l : list A) :
  nth_error l i = Some x ->
  nth_error l j = Some b ->
  nth_error (update i b l) j = Some b.
Proof.
  revert i j. induction l as [|y rest IH]; intros [|i] [|j]; cbn;
    try discriminate; auto.
Qed.

Lemma count_occ_update (i : nat) (a x y : A) (l : list A) :
  nth_error l i = Some a ->
  count_occ eq_dec (update i x l) y + (if eq_dec a y then 1 else 0)
  = count_occ eq_dec l y + (if eq_dec x y then 1 else 0).
Proof.
  revert i. induction l as [|z rest IH]; intros [|i]; cbn;
    try discriminate.
  - intros [= ->]. destruct (eq_dec x y), (eq_dec a y); lia.
  - intros Hn. specialize (IH i Hn). destruct (eq_dec z y); lia.
Qed.

Lemma swap_Permutation (i j : nat) (arr : list A) :
  Permutation (swap i j arr) arr.
Proof.
  unfold swap.
  destruct (nth_error arr i) as [a|] eqn:Hi; [|reflexivity].
  destruct (nth_error arr j) as [b|] eqn:Hj; [|reflexivity].
  apply (Permutation_count_occ eq_dec). intros y.
  pose proof (nth_error_update i j a b arr Hi Hj) as Hj'.
  pose proof (count_occ_update j b a y (update i b arr) Hj') as H1.
  pose proof (count_occ_update i a b y arr Hi) as H2.
  lia.
Qed.

Lemma shuffle_loop_Permutation (draw : nat -> nat) (i : nat)
    (arr : list A) :
  Permutation (shuffle_loop draw i arr) arr.
Proof.
  revert arr. induction i as [|i IH]; intros arr; cbn [shuffle_loop].
  - reflexivity.
  - rewrite IH. apply swap_Permutation.
Qed.

End Swap.

Lemma length_list_ascii_of_string (s : string) :
  List.length (list_ascii_of_string s) = String.length s.
Proof.
  induction s as [|c s IH]; cbn; [reflexivity | now rewrite IH].
Qed.

(** X14. [shuffleString] returns the empty string for an argument that is
    not a string; for a string it returns a string of the same length
    whose characters are those of the argument in some order, whatever the
    random draws are. *)
Theorem shuffleString_permutes (draw : nat -> nat) (str : value) :
  (typeof str <> "string" -> shuffleString draw str = VStr "")
  /\ (forall s, str = VStr s ->
      exists t,
        shuffleString draw str = VStr t
        /\ Permutation (list_ascii_of_string t) (list_ascii_of_string s)
        /\ String.length t = String.length s).
Proof.
  split.
  - destruct str; cbn; intros H; try reflexivity. now elim H.
  - intros s ->. cbn [shuffleString].
    eexists. split; [reflexivity|].
    rewrite list_ascii_of_string_of_list_ascii.
    assert (Hp : Permutation
                   (shuffle_loop draw
                      (List.length (list_ascii_of_string s) - 1)
                      (list_ascii_of_string s))
                   (list_ascii_of_string s))
      by apply (shuffle_loop_Permutation ascii_dec).
    split; [exact Hp|].
    rewrite <- !length_list_ascii_of_string,
      list_ascii_of_string_of_list_ascii.
    now apply Permutation_length.
Qed.

End Engine.

(** * Witnesses

    The theorems at the sample configurations, with what a plain object
    inherits for [inherited]. *)

Lemma constructor_fails_iff_witness :
  In "Unknown" (keys (get unknown_stage_config "stageFunctions"))
  /\ ~ In "Unknown" (elements (get unknown_stage_config "stages"))
  /\ exists error, constructor unknown_stage_config = Throw error.
Proof.
  assert (Hk : In "Unknown" (keys (get unknown_stage_config "stageFunctions")))
    by (left; reflexivity).
  assert (Hn : ~ In "Unknown" (elements (get unknown_stage_config "stages"))).
  { cbn. intros [H|[H|[H|[H|[]]]]]; discriminate H. }
  split; [exact Hk|]. split; [exact Hn|].
  apply (proj1 (constructor_fails_iff unknown_stage_config)).
  right; right; right; left. exists "Unknown". split; assumption.
Defined.

Lemma setState_replaces_currentState_witness :
  valid_engine sample_engine = true
  /\ currentState
       (this (snd (setState (VStr "injected")
                     (mkMachine sample_engine fresh_host))))
     = VStr "injected".
Proof.
  split; [reflexivity|].
  apply (setState_replaces_currentState sample_engine fresh_host
           (VStr "injected")).
  reflexivity.
Defined.

Lemma nextStage_calls_inherited_member_witness :
  constructor inherited_stage_config = Normal inherited_stage_engine
  /\ valid_engine inherited_stage_engine = true
  /\ current_stageFunction inherited_stage_engine = VUndefined
  /\ Object_prototype (stageFunctions inherited_stage_engine) "toString"
     = VFunction 105
  /\ currentState
       (this (snd (nextStage Object_prototype
                     (Normal (VStr "[object Object]"))
                     (mkMachine inherited_stage_engine fresh_host))))
     = VStr "[object Object]"
  /\ previousState
       (this (snd (nextStage Object_prototype
                     (Normal (VStr "[object Object]"))
                     (mkMachine inherited_stage_engine fresh_host))))
     = VNum 7.
Proof.
  split; [reflexivity|]. split; [reflexivity|]. split; [reflexivity|].
  split; [reflexivity|].
  destruct (nextStage_calls_inherited_member Object_prototype
              inherited_stage_engine fresh_host (VStr "[object Object]")
              eq_refl eq_refl) as (_ & Hcalled & _).
  destruct (Hcalled 105 eq_refl) as (_ & Hprev & Hcur & _).
  split; [apply Hcur; discriminate | exact Hprev].
Defined.

Lemma nextStage_stageFunction_returns_witness :
  valid_engine sample_engine = true
  /\ truthy (current_stageFunction sample_engine) = true
  /\ previousState
       (this (snd (nextStage Object_prototype (Normal (VNum 8))
                     (mkMachine sample_engine fresh_host))))
     = VNum 7.
Proof.
  split; [reflexivity|]. split; [reflexivity|].
  apply (nextStage_stageFunction_returns Object_prototype
           sample_engine fresh_host (VNum 8));
    reflexivity.
Defined.

Lemma nextStage_failure_is_atomic_witness :
  truthy (current_stageFunction sample_engine) = true
  /\ this (snd (nextStage Object_prototype (Throw (VError "boom"))
                  (mkMachine sample_engine fresh_host)))
     = sample_engine.
Proof.
  split; [reflexivity|].
  apply (nextStage_failure_is_atomic Object_prototype sample_engine fresh_host
           (VError "boom")).
  reflexivity.
Defined.

Lemma nextStage_failure_is_contained_witness :
  valid_engine sample_engine = true
  /\ truthy (current_stageFunction sample_engine) = true
  /\ currentStageIndex
       (this (snd (run Object_prototype (failing_advances
                          [VError "first"; VError "second"; VNum 3])
                     (mkMachine sample_engine fresh_host))))
     = 0.
Proof.
  split; [reflexivity|]. split; [reflexivity|].
  apply (nextStage_failure_is_contained Object_prototype
           sample_engine fresh_host VNull
           eq_refl eq_refl).
Defined.

Lemma currentStageIndex_in_range_witness :
  constructor sample_config = Normal sample_engine
  /\ exists i,
       fst (getCurrentStageIndex
              (after_calls Object_prototype
                       sample_calls sample_engine fresh_host)) = Normal i
       /\ i < 4.
Proof.
  split; [reflexivity|].
  destruct (currentStageIndex_in_range Object_prototype
           sample_config sample_engine fresh_host
              sample_calls eq_refl) as (i & Hi & Hlt & Hs).
  exists i. split; [exact Hi|]. rewrite Hs in Hlt. exact Hlt.
Defined.

Lemma reset_restores_undefined_witness :
  constructor sample_config = Normal sample_engine
  /\ get sample_config "initialState" = VNum 7
  /\ currentState
       (this (snd (reset (after_calls Object_prototype
                [CallNextStage (Normal (VNum 8))]
                            sample_engine fresh_host))))
     = VUndefined.
Proof.
  split; [reflexivity|]. split; [reflexivity|].
  apply (reset_restores_undefined Object_prototype
           sample_config sample_engine fresh_host
           [CallNextStage (Normal (VNum 8))] eq_refl).
Defined.

Lemma nextStage_does_not_await_witness :
  valid_engine sample_engine = true
  /\ truthy (current_stageFunction sample_engine) = true
  /\ currentStageIndex
       (this (snd (nextStage Object_prototype (Normal (VPromise 0))
                     (mkMachine sample_engine fresh_host))))
     = 1.
Proof.
  split; [reflexivity|]. split; [reflexivity|].
  apply (nextStage_does_not_await Object_prototype
           sample_engine fresh_host 0); reflexivity.
Defined.

Lemma startCycle_uses_truthy_interval_witness :
  truthy (VNum 50) = true
  /\ intervalId running_engine = Some 1
  /\ timers (host (snd (startCycle (VNum 50)
                          (mkMachine running_engine running_host))))
     = [(2, VNum 50)].
Proof.
  split; [reflexivity|]. split; [reflexivity|].
  apply (startCycle_uses_truthy_interval running_engine running_host
           (VNum 50)).
  reflexivity.
Defined.

Lemma successful_advances_wrap_witness :
  valid_engine inherited_stage_engine = true
  /\ stages_callable Object_prototype inherited_stage_engine = true
  /\ currentStageIndex
       (this (after_calls Object_prototype
                (successful_advances [VStr "[object Object]"; VNum 8])
                inherited_stage_engine fresh_host))
     = 0.
Proof.
  split; [reflexivity|]. split; [reflexivity|].
  apply (successful_advances_wrap Object_prototype inherited_stage_engine
           fresh_host [VStr "[object Object]"; VNum 8] eq_refl eq_refl).
  reflexivity.
Defined.

Lemma advance_n_threads_state_witness :
  valid_engine sample_engine = true
  /\ stages_callable Object_prototype sample_engine = true
  /\ (forall f s, exists v, counting f s = Normal v)
  /\ currentState
       (this (advance_n Object_prototype counting 12
                (mkMachine sample_engine fresh_host)))
     = VNum 10.
Proof.
  assert (Hpure : forall f s, exists v, counting f s = Normal v).
  { intros f s. destruct s; eexists; reflexivity. }
  split; [reflexivity|]. split; [reflexivity|]. split; [exact Hpure|].
  rewrite (proj1 (advance_n_threads_state Object_prototype counting
                    sample_engine fresh_host 12 eq_refl eq_refl Hpure)).
  reflexivity.
Defined.

Lemma methods_never_throw_witness :
  constructor sample_config = Normal sample_engine
  /\ typeof (get sample_config "errorHandler") = "function"
  /\ Forall (fun r => r = Normal tt)
       (fst (run Object_prototype
                sample_calls (mkMachine sample_engine fresh_host))).
Proof.
  split; [reflexivity|]. split; [reflexivity|].
  apply (methods_never_throw Object_prototype
           sample_config sample_engine fresh_host
           sample_calls eq_refl).
  left. reflexivity.
Defined.

Lemma callbacks_get_stage_names_witness :
  constructor sample_config = Normal sample_engine
  /\ callback_stages (trace fresh_host) = []
  /\ Forall (fun stage =>
               exists name, stage = VStr name /\ In name four_stages)
       (callback_stages
          (trace (host (after_calls Object_prototype
                   sample_calls sample_engine fresh_host)))).
Proof.
  split; [reflexivity|]. split; [reflexivity|].
  apply (callbacks_get_stage_names Object_prototype
           sample_config sample_engine fresh_host
           sample_calls eq_refl eq_refl).
Defined.

Lemma engine_owns_at_most_one_timer_witness :
  constructor sample_config = Normal sample_engine
  /\ host_fresh running_host = true
  /\ ((intervalId
         (this (after_calls Object_prototype
                  [CallStartCycle (VNum 100); CallStartCycle (VNum 50)]
                  sample_engine running_host)) = None
       /\ timers
            (host (after_calls Object_prototype
                     [CallStartCycle (VNum 100); CallStartCycle (VNum 50)]
                     sample_engine running_host))
          = timers running_host)
      \/ (exists t d,
            intervalId
              (this (after_calls Object_prototype
                       [CallStartCycle (VNum 100); CallStartCycle (VNum 50)]
                       sample_engine running_host)) = Some t
            /\ truthy d = true
            /\ timers
                 (host (after_calls Object_prototype
                          [CallStartCycle (VNum 100); CallStartCycle (VNum 50)]
                          sample_engine running_host))
               = (t, d) :: timers running_host)).
Proof.
  split; [reflexivity|]. split; [reflexivity|].
  apply (engine_owns_at_most_one_timer Object_prototype
           sample_config sample_engine
           running_host
           [CallStartCycle (VNum 100); CallStartCycle (VNum 50)]
           eq_refl eq_refl).
Defined.

Lemma no_stageFunctions_state_is_constant_witness :
  constructor plain_config = Normal plain_engine
  /\ truthy (get plain_config "stageFunctions") = false
  /\ (forall name, In name (elements (get plain_config "stages")) ->
      truthy (Object_prototype (VObject []) name) = false)
  /\ currentState
       (this (after_calls Object_prototype
                (map CallNextStage [Normal (VNum 1); Throw VNull; Normal VNaN])
                plain_engine fresh_host))
     = VStr "start".
Proof.
  assert (Hplain : forall name,
             In name (elements (get plain_config "stages")) ->
             truthy (Object_prototype (VObject []) name) = false).
  { intros name [<-|[<-|[<-|[<-|[]]]]]; reflexivity. }
  split; [reflexivity|]. split; [reflexivity|]. split; [exact Hplain|].
  apply (no_stageFunctions_state_is_constant Object_prototype plain_config
           plain_engine fresh_host
           [Normal (VNum 1); Throw VNull; Normal VNaN]
           eq_refl eq_refl Hplain).
Defined.

Lemma stopCycle_idempotent_witness :
  In (7, VNum 30) [(1, VNum 100); (7, VNum 30)]
  /\ intervalId running_engine <> Some 7
  /\ In (7, VNum 30)
       (timers (host (snd (stopCycle
                             (mkMachine running_engine
                                (mkHost [] [(1, VNum 100); (7, VNum 30)]
                                   8)))))).
Proof.
  assert (Hin : In (7, VNum 30) [(1, VNum 100); (7, VNum 30)])
    by (right; left; reflexivity).
  assert (Hne : intervalId running_engine <> Some 7) by discriminate.
  split; [exact Hin|]. split; [exact Hne|].
  apply (stopCycle_idempotent running_engine
           (mkHost [] [(1, VNum 100); (7, VNum 30)] 8)); assumption.
Defined.

Lemma startCycle_restart_witness :
  intervalId sample_engine = None
  /\ host_fresh (mkHost [] [(3, VNum 10)] 4) = true
  /\ timers
       (host (snd (startCycle (VNum 50)
                     (snd (startCycle (VNum 100)
                             (mkMachine sample_engine
                                (mkHost [] [(3, VNum 10)] 4)))))))
     = [(5, VNum 50); (3, VNum 10)].
Proof.
  split; [reflexivity|]. split; [reflexivity|].
  apply (startCycle_restart sample_engine (mkHost [] [(3, VNum 10)] 4)
           (VNum 100) (VNum 50)); reflexivity.
Defined.

Lemma setState_then_nextStage_witness :
  valid_engine sample_engine = true
  /\ truthy (current_stageFunction sample_engine) = true
  /\ fst (getPreviousState
            (snd (nextStage Object_prototype (Normal (VNum 9))
                    (snd (setState (VStr "injected")
                            (mkMachine sample_engine fresh_host))))))
     = Normal (VStr "injected").
Proof.
  split; [reflexivity|]. split; [reflexivity|].
  apply (setState_then_nextStage Object_prototype
           sample_engine fresh_host (VStr "injected")
           (VNum 9)); reflexivity.
Defined.

Lemma nextStage_keeps_timer_witness :
  valid_engine running_engine = true
  /\ intervalId
       (this (snd (nextStage Object_prototype (Throw (VError "boom"))
                     (mkMachine running_engine running_host))))
     = Some 1
  /\ timers
       (host (snd (nextStage Object_prototype (Throw (VError "boom"))
                     (mkMachine running_engine running_host))))
     = [(1, VNum 100)].
Proof.
  split; [reflexivity|].
  destruct (nextStage_keeps_timer Object_prototype running_engine running_host
              (Throw (VError "boom")) VNull eq_refl)
    as ((Hid & Htimers & _) & _).
  split; [exact Hid | exact Htimers].
Defined.

Lemma nextStage_errorHandler_not_callable_witness :
  constructor unchecked_handler_config = Normal unchecked_handler_engine
  /\ valid_engine unchecked_handler_engine = true
  /\ fst (nextStage Object_prototype (Throw (VError "boom"))
            (mkMachine unchecked_handler_engine fresh_host))
     = Throw VTypeError.
Proof.
  split; [reflexivity|]. split; [reflexivity|].
  apply (nextStage_errorHandler_not_callable Object_prototype
           unchecked_handler_engine
           fresh_host (VError "boom")); try reflexivity.
  discriminate.
Defined.

Lemma constructor_error_messages_witness :
  unknown_stage_config <> VNull
  /\ ~ In "Unknown" (elements (get unknown_stage_config "stages"))
  /\ constructor unknown_stage_config
     = Throw (VError
                ("Invalid stage name 'Unknown' in stageFunctions.  "
                 ++ "Must be one of: "
                 ++ "Mapping, Iteration, Checking, Transformation")).
Proof.
  assert (Hn : unknown_stage_config <> VNull) by discriminate.
  assert (Hk : ~ In "Unknown" (elements (get unknown_stage_config "stages"))).
  { cbn. intros [H|[H|[H|[H|[]]]]]; discriminate H. }
  split; [exact Hn|]. split; [exact Hk|].
  destruct (constructor_error_messages unknown_stage_config)
    as (_ & _ & _ & Hkeys).
  refine (proj1 (Hkeys Hn eq_refl eq_refl _ eq_refl [] "Unknown" []
                   eq_refl _) Hk).
  - discriminate.
  - intros x [].
Defined.

Lemma failed_stage_is_retried_witness :
  valid_engine sample_engine = true
  /\ truthy (current_stageFunction sample_engine) = true
  /\ this (snd (nextStage Object_prototype (Normal (VNum 8))
                  (snd (nextStage Object_prototype (Throw (VError "boom"))
                          (mkMachine sample_engine fresh_host)))))
     = this (snd (nextStage Object_prototype (Normal (VNum 8))
                    (mkMachine sample_engine fresh_host))).
Proof.
  split; [reflexivity|]. split; [reflexivity|].
  apply (failed_stage_is_retried Object_prototype
           sample_engine fresh_host (VError "boom")
           (VNum 8)); reflexivity.
Defined.

Lemma shuffleString_permutes_witness :
  typeof (VNum 5) <> "string"
  /\ shuffleString (fun i => 7 * i + 3) (VNum 5) = VStr ""
  /\ exists t,
       shuffleString (fun i => 7 * i + 3) (VStr "Hello, World!") = VStr t
       /\ Permutation (list_ascii_of_string t)
            (list_ascii_of_string "Hello, World!")
       /\ String.length t = 13.
Proof.
  assert (Hn : typeof (VNum 5) <> "string") by discriminate.
  split; [exact Hn|]. split.
  - apply (shuffleString_permutes (fun i => 7 * i + 3) (VNum 5)). exact Hn.
  - apply (proj2 (shuffleString_permutes (fun i => 7 * i + 3)
                    (VStr "Hello, World!")) "Hello, World!" eq_refl).
Defined.
